(** * PokemonCafe_Tweaked.py: slot selection, slot extraction, the
      target-time waiter, the start-up checks and the polling loop

    A shallow embedding of [PokemonCafe_Tweaked.py].  Pure functions of the
    script are Rocq functions; code that can raise returns a [result];
    the browser is a snapshot record holding the answer to each query the
    loop issues; the wall clock is an explicit sequence of readings. *)

From Stdlib Require Import ZArith NArith List Bool String Ascii Lia.
From Stdlib Require Import Sorted Permutation.
Import ListNotations.
Open Scope Z_scope.

(** ** Exceptions and fallible code *)

Inductive exc : Set :=
| TypeError
| ValueError
| IndexError
| OverflowError
| NoSuchElementException
| KeyboardInterrupt
| InvalidSessionIdException
| NoSuchWindowException.

Inductive result (A : Type) : Type :=
| Ok (a : A)
| Raise (e : exc).
Arguments Ok {A} a.
Arguments Raise {A} e.

Definition bind {A B : Type} (r : result A) (k : A -> result B) : result B :=
  match r with
  | Ok a => k a
  | Raise e => Raise e
  end.

Declare Scope py_scope.
Delimit Scope py_scope with py.
Notation "x <- r ;; k" := (bind r (fun x => k))
  (at level 61, r at next level, right associativity) : py_scope.

(** ** [datetime.time]

    A time of day with its [tzinfo], as [time.fromisoformat] builds it:
    [utcoffset] is [None] for a naive time ([hh:mm]) and the offset from
    UTC, in microseconds, for an aware one ([hh:mm+09:00]).
    [strptime(...).time()] gives naive times.  A [time] object is always
    truthy, so [not t] on an [Optional[time]] tests for [None]. *)

Record time : Set := mk_time
  { hour : Z; minute : Z; second : Z; microsecond : Z;
    utcoffset : option Z }.

Definition lex (c1 c2 : comparison) : comparison :=
  match c1 with
  | Eq => c2
  | _ => c1
  end.

(** Two naive times, or two aware times with the same offset, compare as
    the tuples [(hour, minute, second, microsecond)]. *)
Definition time_cmp (a b : time) : comparison :=
  lex (hour a ?= hour b)
    (lex (minute a ?= minute b)
       (lex (second a ?= second b) (microsecond a ?= microsecond b))).

(** Two aware times with different offsets compare by their seconds since
    midnight less the whole seconds of the offset, then by microsecond. *)
Definition utc_seconds (t : time) (offset : Z) : Z :=
  hour t * 3600 + minute t * 60 + second t - offset / 1000000.

Definition aware_cmp (a b : time) (oa ob : Z) : comparison :=
  lex (utc_seconds a oa ?= utc_seconds b ob) (microsecond a ?= microsecond b).

(** The comparison behind the operators; [None] when one time is naive and
    the other aware. *)
Definition py_cmp (a b : time) : option comparison :=
  match utcoffset a, utcoffset b with
  | None, None => Some (time_cmp a b)
  | Some oa, Some ob =>
      if oa =? ob then Some (time_cmp a b) else Some (aware_cmp a b oa ob)
  | _, _ => None
  end.

Definition is_le (c : comparison) : bool :=
  match c with Gt => false | _ => true end.
Definition is_ge (c : comparison) : bool :=
  match c with Lt => false | _ => true end.
Definition is_lt (c : comparison) : bool :=
  match c with Lt => true | _ => false end.
Definition is_gt (c : comparison) : bool :=
  match c with Gt => true | _ => false end.

(** An ordering operator raises [TypeError] on a naive and an aware
    time. *)
Definition ordering (test : comparison -> bool) (a b : time) : result bool :=
  match py_cmp a b with
  | Some c => Ok (test c)
  | None => Raise TypeError
  end.

(** [a <= b], [a >= b], [a < b], [a > b] on times. *)
Definition time_le : time -> time -> result bool := ordering is_le.
Definition time_ge : time -> time -> result bool := ordering is_ge.
Definition time_lt : time -> time -> result bool := ordering is_lt.
Definition time_gt : time -> time -> result bool := ordering is_gt.

(** [a == b]: a naive and an aware time are unequal. *)
Definition time_eq (a b : time) : bool :=
  match py_cmp a b with
  | Some Eq => true
  | _ => false
  end.

(** [hh:mm], the form every extracted slot has. *)
Definition hm (h m : Z) : time := mk_time h m 0 0 None.

(** ** [select_best_time] *)

(** The loop of the both-bounds branch: return at the first slot in range.
    [and] does not evaluate its second operand when the first is false. *)
Fixpoint first_in_range (min_time max_time : time) (time_slots : list time)
  : result (option time) :=
  match time_slots with
  | [] => Ok None
  | time_slot :: rest =>
      (above <- time_ge time_slot min_time ;;
       within <- (if above then time_le time_slot max_time else Ok false) ;;
       if within then Ok (Some time_slot)
       else first_in_range min_time max_time rest)%py
  end.

(** The loop of the min-only branch, [latest_time] being the loop variable. *)
Fixpoint latest_from (min_time : time) (time_slots : list time)
  (latest_time : option time) : result (option time) :=
  match time_slots with
  | [] => Ok latest_time
  | time_slot :: rest =>
      (above <- time_ge time_slot min_time ;;
       next <- (if above
                then match latest_time with
                     | None => Ok (Some time_slot)
                     | Some l =>
                         later <- time_gt time_slot l ;;
                         Ok (if later then Some time_slot else latest_time)
                     end
                else Ok latest_time) ;;
       latest_from min_time rest next)%py
  end.

(** The loop of the max-only branch. *)
Fixpoint earliest_upto (max_time : time) (time_slots : list time)
  (earliest_time : option time) : result (option time) :=
  match time_slots with
  | [] => Ok earliest_time
  | time_slot :: rest =>
      (below <- time_le time_slot max_time ;;
       next <- (if below
                then match earliest_time with
                     | None => Ok (Some time_slot)
                     | Some e =>
                         earlier <- time_lt time_slot e ;;
                         Ok (if earlier then Some time_slot
                             else earliest_time)
                     end
                else Ok earliest_time) ;;
       earliest_upto max_time rest next)%py
  end.

Definition select_best_time (time_slots : list time)
  (min_time max_time : option time) : result (option time) :=
  match time_slots with
  | [] => Ok None
  | first :: _ =>
      match min_time, max_time with
      | None, None => Ok (Some first)
      | Some lo, Some hi => first_in_range lo hi time_slots
      | Some lo, None => latest_from lo time_slots None
      | None, Some hi => earliest_upto hi time_slots None
      end
  end.

(** ** [str]

    A Python string is its sequence of code points.  [lit] turns an ASCII
    literal of the script into that form. *)

Definition str : Set := list Z.

Definition lit (s : string) : str :=
  map (fun a => Z.of_N (N_of_ascii a)) (list_ascii_of_string s).
Arguments lit s%_string.

Fixpoint starts_with (p s : str) : bool :=
  match p, s with
  | [], _ => true
  | _ :: _, [] => false
  | a :: p', b :: s' => (a =? b) && starts_with p' s'
  end.

(** [p in s]. *)
Fixpoint str_in (p s : str) : bool :=
  starts_with p s
  || match s with
     | [] => false
     | _ :: s' => str_in p s'
     end.

(** The character class [[0-9]]. *)
Definition ascii_digit (c : Z) : bool := (48 <=? c) && (c <=? 57).

(** [re.split('[^0-9]', s)]: every character outside [[0-9]] separates two
    pieces, so the pieces are (possibly empty) runs of ASCII digits. *)
Fixpoint re_split_non_digits (s : str) : list str :=
  match s with
  | [] => [[]]
  | c :: s' =>
      if ascii_digit c
      then match re_split_non_digits s' with
           | p :: ps => (c :: p) :: ps
           | [] => [[c]]
           end
      else [] :: re_split_non_digits s'
  end.

(** [int(s)] on a run of ASCII digits: the empty string is refused, and so
    is a literal longer than the interpreter's limit of 4300 digits. *)
Definition int_max_str_digits : Z := 4300.

Definition py_int (s : str) : result Z :=
  match s with
  | [] => Raise ValueError
  | _ :: _ =>
      if int_max_str_digits <? Z.of_nat (List.length s) then Raise ValueError
      else Ok (fold_left (fun acc c => 10 * acc + (c - 48)) s 0)
  end.

(** ** [datetime.date] *)

Record date : Set := mk_date { year : Z; month : Z; day : Z }.

Definition is_leap (y : Z) : bool :=
  (y mod 4 =? 0) && (negb (y mod 100 =? 0) || (y mod 400 =? 0)).

Definition days_in_month (y m : Z) : Z :=
  if (m =? 2) && is_leap y then 29
  else nth (Z.to_nat m) [0; 31; 28; 31; 30; 31; 30; 31; 31; 30; 31; 30; 31] 0.

Definition days_before_year (y : Z) : Z :=
  let y' := y - 1 in y' * 365 + y' / 4 - y' / 100 + y' / 400.

Definition days_before_month (y m : Z) : Z :=
  nth (Z.to_nat m) [0; 0; 31; 59; 90; 120; 151; 181; 212; 243; 273; 304; 334] 0
  + (if (2 <? m) && is_leap y then 1 else 0).

Definition toordinal (d : date) : Z :=
  days_before_year (year d) + days_before_month (year d) (month d) + day d.

(** The constructor [date(y, m, d)] takes its arguments as C [int]s, then
    checks the fields. *)
Definition MINYEAR : Z := 1.
Definition MAXYEAR : Z := 9999.

Definition fits_c_int (n : Z) : bool :=
  (-2147483648 <=? n) && (n <=? 2147483647).

Definition date_new (y m d : Z) : result date :=
  if negb (fits_c_int y && fits_c_int m && fits_c_int d)
  then Raise OverflowError
  else if negb ((MINYEAR <=? y) && (y <=? MAXYEAR)) then Raise ValueError
  else if negb ((1 <=? m) && (m <=? 12)) then Raise ValueError
  else if negb ((1 <=? d) && (d <=? days_in_month y m)) then Raise ValueError
  else Ok (mk_date y m d).

Definition date_cmp (a b : date) : comparison :=
  lex (year a ?= year b) (lex (month a ?= month b) (day a ?= day b)).
Definition date_lt (a b : date) : bool :=
  match date_cmp a b with Lt => true | _ => false end.
Definition date_gt (a b : date) : bool :=
  match date_cmp a b with Gt => true | _ => false end.

(** ** Instants and durations

    An aware [datetime] is the instant it denotes, in microseconds since
    midnight UTC of ordinal day 0 (the day before 0001-01-01); aware
    datetimes are compared and subtracted as instants.  A [timedelta], and
    the argument of [sleep], is a number of microseconds: [total_seconds]
    returns a float, of which the model keeps the exact value. *)

Definition us_per_second : Z := 1000000.
Definition seconds (n : Z) : Z := n * us_per_second.
Definition minutes (n : Z) : Z := seconds (60 * n).
Definition hours (n : Z) : Z := minutes (60 * n).
Definition days (n : Z) : Z := hours (24 * n).

(** [timezone(timedelta(hours=9))]. *)
Definition japan_tz : Z := hours 9.

(** [datetime(d.year, d.month, d.day, h, mi, s, tzinfo=tz)]. *)
Definition datetime_at (d : date) (h mi s : Z) (tz : Z) : Z :=
  days (toordinal d) + hours h + minutes mi + seconds s - tz.

(** ** What a run does: the log, sleeps and browser commands *)

Inductive element : Set :=
| AgreeCheckboxLabel
| AgreeButton
| ContinueButton
| TimeSlotLink (index : nat)
| NextMonthButton
| PreviousMonthButton
| DateCell
| NextButton.

Inductive event : Set :=
| Log (msg : string)                    (* print of a literal message *)
| LogFound (time_slot_texts : list str) (* "Found available time slots: ..." *)
| LogExtracted (time_slots : list time) (* "Extracted times: ..." *)
| LogSelecting (best : time)            (* "Selecting time slot ..." *)
| LogOpening (reservations_open : Z)    (* "Reservations for the ... are expected to open at ..." *)
| LogWaiting (target_time : Z)          (* "Waiting until a minute before reservations open... (...)" *)
| Sleep (us : Z)
| Refresh
| Click (e : element)
| SelectByIndex (index : Z).

(** ** [wait_until_datetime]

    [clock i] is what the [i]-th call of [datetime.now] returns.  The loop
    has no bound of its own, so the model takes fuel: one unit per
    iteration.  On return it gives the index of the reading that ended the
    wait, and what the wait did. *)

Section Clock.

Variable clock : nat -> Z.

Fixpoint wait_until_datetime (fuel : nat) (target : Z) (i : nat)
  : option (nat * list event) :=
  match fuel with
  | O => None
  | S fuel' =>
      let now := clock i in
      if now >=? target then Some (i, [Log "Target time reached!"])
      else
        let time_to_wait := target - now in
        match wait_until_datetime fuel' target (S i) with
        | Some (k, tr) => Some (k, Sleep time_to_wait :: tr)
        | None => None
        end
  end.

End Clock.

(** ** The command line, after parsing *)

Record Args : Set := mk_args
  { args_guests : Z;
    args_date : date;
    args_minTime : option time;
    args_maxTime : option time;
    args_wait : bool }.

(** ** Waiting for the reservations to open *)

Definition reservations_open (d : date) : Z :=
  datetime_at d 18 0 0 japan_tz - days 31.

(** The [if args.wait:] block, given the reading [now] taken just before
    it: what is logged, and the argument [wait_until_datetime] is called
    with ([None] when it is not called). *)
Definition wait_handling (args : Args) (now : Z) : list event * option Z :=
  if args_wait args then
    let target_time := reservations_open (args_date args) - minutes 1 in
    if now <? target_time
    then ([LogOpening (reservations_open (args_date args));
           LogWaiting target_time],
          Some (reservations_open (args_date args)))
    else ([LogOpening (reservations_open (args_date args));
           Log "Reservations for the selected date have already opened, skipping wait. Note that it's possible that reservations are already full."],
          None)
  else ([], None).

(** The whole of it on a clock: reading 0 is [now], the waiter reads on
    from 1. *)
Definition startup_wait (clock : nat -> Z) (fuel : nat) (args : Args)
  : option (list event) :=
  match wait_handling args (clock O) with
  | (evs, None) => Some evs
  | (evs, Some target) =>
      match wait_until_datetime clock fuel target 1 with
      | Some (_, tr) => Some (evs ++ tr)
      | None => None
      end
  end.

(** ** Slot extraction *)

Section Digits.

(** [\d] of a [str] pattern and [int] accept every Unicode decimal digit.
    The ASCII ones are written out; [nd_value] stands for the Unicode
    table: the value of a decimal digit outside ASCII, [None] for any
    other code point. *)
Variable nd_value : Z -> option Z.

Definition digit_value (c : Z) : option Z :=
  if ascii_digit c then Some (c - 48)
  else if c <? 128 then None
  else nd_value c.

Definition re_d (c : Z) : bool :=
  match digit_value c with Some _ => true | None => false end.

(** A match of [(\d{2}:\d{2})]: its four digits; the text of the match
    is never empty. *)
Definition hhmm_match : Set := (Z * Z * Z * Z)%type.

Definition match_here (s : str) : option hhmm_match :=
  match s with
  | c1 :: c2 :: c3 :: c4 :: c5 :: _ =>
      if re_d c1 && re_d c2 && (c3 =? 58) && re_d c4 && re_d c5
      then Some (c1, c2, c4, c5)
      else None
  | _ => None
  end.

(** [re.search(r"(\d{2}:\d{2})", s)]: the leftmost match, or [None]. *)
Fixpoint re_search (s : str) : option hhmm_match :=
  match match_here s with
  | Some m => Some m
  | None =>
      match s with
      | [] => None
      | _ :: s' => re_search s'
      end
  end.

Definition between (lo hi c : Z) : bool := (lo <=? c) && (c <=? hi).

(** [datetime.strptime(m, "%H:%M").time()] on such a match.  The format
    becomes [(2[0-3]|[0-1]\d|\d):([0-5]\d|\d)], which must consume all
    five characters. *)
Definition strptime_HM (m : hhmm_match) : result time :=
  let '(c1, c2, c4, c5) := m in
  match digit_value c1, digit_value c2, digit_value c4, digit_value c5 with
  | Some v1, Some v2, Some v4, Some v5 =>
      if (((c1 =? 50) && between 48 51 c2) || between 48 49 c1)
         && between 48 53 c4
      then Ok (hm (10 * v1 + v2) (10 * v4 + v5))
      else Raise ValueError
  | _, _, _, _ => Raise ValueError
  end.

(** The [for time_slot_string in time_slot_texts] loop; [time_slots] is
    the list built so far.  [extracted_time[0]] on a failed search
    subscripts [None]. *)
Fixpoint extract_times (time_slot_texts : list str) (time_slots : list time)
  : result (list time) :=
  match time_slot_texts with
  | [] => Ok time_slots
  | time_slot_string :: rest =>
      match re_search time_slot_string with
      | None => Raise TypeError
      | Some extracted_time =>
          (t <- strptime_HM extracted_time ;;
           extract_times rest (time_slots ++ [t]))%py
      end
  end.

End Digits.

(** ** The page, as one tick of the loop sees it

    A snapshot holds [driver.title], [driver.page_source] and the answer to
    each element query of the loop body: whether the element is found and,
    where the loop reads it, its text or class.  Queries built from the
    arguments take that argument.  The page does not change during a tick.
    A command sent to an element that was found ([click],
    [select_by_index]) and [refresh] are taken to succeed; the element
    named "guest", when found, is a [<select>] with an option of the
    requested index. *)

Record Snapshot : Type := mk_snapshot
  { title : str;
    page_source : str;
    agree_checkbox : bool;          (* "#agreeChecked:not(:checked)" *)
    agree_checkbox_label : bool;    (* "label.agreeChecked" *)
    agree_button : bool;            (* "#forms-agree .button-container-agree button:not(:disabled)" *)
    continue_button : bool;         (* "a.button[href='/reserve/step1'] " *)
    time_table : bool;              (* id "time_table" *)
    time_slot_elements : list str;  (* "#time_table .time-cell a", the text of each *)
    guests_selected : Z -> bool;    (* "option[selected='selected'][value='{guests}']" *)
    guest_select : bool;            (* name "guest", found by find_element *)
    calendar_header : option str;   (* "#step2-form h3", its text *)
    next_month_button : bool;       (* "div:nth-child(3) > .calendar-pager" *)
    previous_month_button : bool;   (* "div:nth-child(1) > .calendar-pager" *)
    date_cell : Z -> option str;    (* the calendar-day-cell holding the day, its class *)
    next_button : bool }.           (* id "submit_button" *)

(** The states of the specification.  Each branch of the loop body is the
    handler of one of them (its section 4.3); a branch that is the handler
    of none, and the end of the body, count as [Unclassified]. *)
Inductive PageState : Set :=
| Loading
| CaptchaChallenge
| TermsUnchecked
| TermsUnagreed
| EmailAuthPrompt
| Congested
| GuestUnset
| CalendarMonthMismatch
| DateUnselected
| DateSelectedAwaitingNext
| TimeSlotListPresent
| NoTimeSlotsListed
| ReservationPendingCompletion
| Unclassified.

(** How a tick leaves the loop body: [continue] or the end of the body,
    [break], or an exception. *)
Inductive control : Set :=
| Continue
| Break
| Raised (e : exc).

Record outcome : Set := out
  { handler : PageState;
    trace : list event;
    ctl : control }.

Definition interval : Z := seconds 2.

Definition is_empty (s : str) : bool :=
  match s with
  | [] => true
  | _ :: _ => false
  end.

(** [l.index(x)] on a list of times. *)
Fixpoint index_of (x : time) (l : list time) : option nat :=
  match l with
  | [] => None
  | y :: l' =>
      if time_eq y x then Some O else option_map S (index_of x l')
  end.

(** A block of the loop body either ends the tick or falls through to the
    statement after it. *)
Definition or_else (b : option outcome) (rest : outcome) : outcome :=
  match b with
  | Some o => o
  | None => rest
  end.

(** The end of the loop body. *)
Definition sleep_and_refresh : outcome :=
  out Unclassified [Sleep interval; Refresh] Continue.

Definition terms_block (s : Snapshot) : option outcome :=
  if str_in (lit "/ Agree to terms") (page_source s) then
    if agree_checkbox s then
      if agree_checkbox_label s
      then Some (out TermsUnchecked
                   [Log "Checking terms checkbox."; Click AgreeCheckboxLabel]
                   Continue)
      else Some (out TermsUnchecked
                   [Log "Checking terms checkbox.";
                    Log "WARN: Terms checkbox label not found.";
                    Sleep interval]
                   Continue)
    else if agree_button s then
      if str_in (lit "no available seats can be found") (page_source s)
      then Some (out TermsUnagreed
                   [Log "Clicking terms agree button.";
                    Log "No available seats found, refreshing...";
                    Click AgreeButton; Sleep interval; Refresh]
                   Continue)
      else Some (out TermsUnagreed
                   [Log "Clicking terms agree button."; Click AgreeButton]
                   Continue)
    else None
  else None.

Definition email_block (s : Snapshot) : option outcome :=
  if str_in (lit "About Email Address Authentication") (page_source s) then
    if continue_button s
    then Some (out EmailAuthPrompt
                 [Log "Clicking continue button."; Click ContinueButton]
                 Continue)
    else None
  else None.

Definition congested_block (s : Snapshot) : option outcome :=
  if str_in (lit "congested") (page_source s)
  then Some (out Congested
               [Log "Site congested, refreshing..."; Sleep interval; Refresh]
               Continue)
  else None.

Section Loop.

Variable nd_value : Z -> option Z.
Variable args : Args.

(** [if time_table:] *)
Definition time_table_block (s : Snapshot) : outcome :=
  let time_slot_texts := time_slot_elements s in
  match time_slot_texts with
  | [] =>
      out NoTimeSlotsListed
        [Log "No time slots found, refreshing..."; Sleep interval; Refresh]
        Continue
  | _ :: _ =>
      match extract_times nd_value time_slot_texts [] with
      | Raise e =>
          out TimeSlotListPresent [LogFound time_slot_texts] (Raised e)
      | Ok time_slots =>
          match select_best_time time_slots
                  (args_minTime args) (args_maxTime args) with
          | Raise e =>
              out TimeSlotListPresent
                [LogFound time_slot_texts; LogExtracted time_slots]
                (Raised e)
          | Ok (Some best_time_slot) =>
              match index_of best_time_slot time_slots with
              | None =>
                  out TimeSlotListPresent
                    [LogFound time_slot_texts; LogExtracted time_slots]
                    (Raised ValueError)
              | Some best_time_slot_index =>
                  if (best_time_slot_index <? List.length time_slot_texts)%nat
                  then out TimeSlotListPresent
                         [LogFound time_slot_texts; LogExtracted time_slots;
                          LogSelecting best_time_slot;
                          Click (TimeSlotLink best_time_slot_index)]
                         Continue
                  else out TimeSlotListPresent
                         [LogFound time_slot_texts; LogExtracted time_slots;
                          LogSelecting best_time_slot]
                         (Raised IndexError)
              end
          | Ok None =>
              out TimeSlotListPresent
                [LogFound time_slot_texts; LogExtracted time_slots;
                 Log "No available time slots within the specified time range.";
                 Sleep interval; Refresh]
                Continue
          end
      end
  end.

(** From "Here we can assume we are in the correct month and year" on. *)
Definition date_cell_block (s : Snapshot) : outcome :=
  match date_cell s (day (args_date args)) with
  | Some class =>
      if negb (str_in (lit "selected") class)
      then out DateUnselected
             [Log "Selecting the day of the month."; Click DateCell]
             Continue
      else if next_button s
      then out DateSelectedAwaitingNext
             [Log "Pressing Next step button."; Click NextButton]
             Continue
      else out Unclassified
             [Log "WARN: Calendar next button not found.";
              Sleep interval; Refresh]
             Continue
  | None =>
      out Unclassified
        [Log "WARN: Correct month, but date cell not found."; Sleep interval]
        Continue
  end.

(** [if selected_year != args.date.year or selected_month != args.date.month:]
    [None] when no pager is pressed and the body goes on to the date
    cell.  The [elif] builds the date a second time. *)
Definition month_pager_block (s : Snapshot) (selected_year selected_month : Z)
  : result (option outcome) :=
  (shown <- date_new selected_year selected_month (day (args_date args)) ;;
   if date_lt shown (args_date args) then
     Ok (if next_month_button s
         then Some (out CalendarMonthMismatch
                      [Log "Selecting the next month."; Click NextMonthButton]
                      Continue)
         else None)
   else
     shown' <- date_new selected_year selected_month (day (args_date args)) ;;
     if date_gt shown' (args_date args) then
       Ok (if previous_month_button s
           then Some (out CalendarMonthMismatch
                        [Log "Selecting the previous month.";
                         Click PreviousMonthButton]
                        Continue)
           else None)
     else Ok None)%py.

(** [if (calendar_header):] *)
Definition calendar_block (s : Snapshot) (header_text : str) : outcome :=
  let split_text := re_split_non_digits header_text in
  match split_text with
  | y :: m :: _ =>
      match py_int y with
      | Raise e => out Unclassified [] (Raised e)
      | Ok selected_year =>
          match py_int m with
          | Raise e => out Unclassified [] (Raised e)
          | Ok selected_month =>
              if negb (selected_year =? year (args_date args))
                 || negb (selected_month =? month (args_date args))
              then
                match month_pager_block s selected_year selected_month with
                | Raise e => out CalendarMonthMismatch [] (Raised e)
                | Ok (Some o) => o
                | Ok None => date_cell_block s
                end
              else date_cell_block s
          end
      end
  | _ =>
      out Unclassified
        [Log "WARN: Calendar header text not in expected format.";
         Sleep interval]
        Continue
  end.

(** [if ("Table Reservation" in driver.page_source):] *)
Definition table_block (s : Snapshot) : option outcome :=
  if str_in (lit "Table Reservation") (page_source s) then
    if time_table s then Some (time_table_block s)
    else if str_in (lit "complete your reservation") (page_source s)
    then Some (out ReservationPendingCompletion
                 [Log "Reservation waiting for completion."] Break)
    else if negb (guests_selected s (args_guests args)) then
      if guest_select s
      then Some (out GuestUnset
                   [Log "Selecting the number of guests.";
                    SelectByIndex (args_guests args)]
                   Continue)
      else Some (out GuestUnset
                   [Log "Selecting the number of guests."]
                   (Raised NoSuchElementException))
    else
      match calendar_header s with
      | Some header_text => Some (calendar_block s header_text)
      | None => None
      end
  else None.

(** One pass through the body of [while True:]. *)
Definition tick (s : Snapshot) : outcome :=
  if is_empty (title s) || is_empty (page_source s)
  then out Loading [Sleep interval] Continue
  else if str_in (lit "confirm you are human") (page_source s)
  then out CaptchaChallenge
         [Log "Captcha detected. Please solve it manually."; Sleep interval]
         Continue
  else
    or_else (terms_block s)
      (or_else (email_block s)
         (or_else (congested_block s)
            (or_else (table_block s) sleep_and_refresh))).

(** The state a snapshot is handled as. *)
Definition classify (s : Snapshot) : PageState := handler (tick s).

(** ** The loop and its [except] clauses *)

Inductive exit : Set :=
| Completed                 (* [break] *)
| Interrupted               (* [except KeyboardInterrupt] *)
| SessionClosed             (* [except (InvalidSessionIdException, NoSuchWindowException)] *)
| Uncaught (e : exc).       (* no clause applies: the script dies with a traceback *)

Definition on_exception (e : exc) : exit :=
  match e with
  | KeyboardInterrupt => Interrupted
  | InvalidSessionIdException | NoSuchWindowException => SessionClosed
  | _ => Uncaught e
  end.

(** [pages i] is the page during tick [i]; fuel bounds the number of
    ticks. *)
Fixpoint main_loop (fuel : nat) (pages : nat -> Snapshot) (i : nat)
  : option (exit * list event) :=
  match fuel with
  | O => None
  | S fuel' =>
      let o := tick (pages i) in
      match ctl o with
      | Continue =>
          match main_loop fuel' pages (S i) with
          | Some (x, tr) => Some (x, trace o ++ tr)
          | None => None
          end
      | Break => Some (Completed, trace o)
      | Raised e => Some (on_exception e, trace o)
      end
  end.

End Loop.

(** ** Specification predicates *)

(** A time without UTC offset. *)
Definition naive (t : time) : Prop := utcoffset t = None.

(** Of two times one carries a UTC offset and the other does not: the pairs
    whose ordering raises [TypeError]. *)
Definition mixed (a b : time) : Prop :=
  (naive a /\ ~ naive b) \/ (~ naive a /\ naive b).

(** The order on naive times as a proposition: the tuples compare
    lexicographically. *)
Definition lex_le (a b : time) : Prop :=
  hour a < hour b \/
  (hour a = hour b /\
   (minute a < minute b \/
    (minute a = minute b /\
     (second a < second b \/
      (second a = second b /\ microsecond a <= microsecond b))))).

(** What the min-only loop has found once it has gone through [seen]. *)
Definition latest_of (lo : time) (seen : list time) (r : option time) : Prop :=
  match r with
  | Some t =>
      In t seen /\ lex_le lo t /\ forall s, In s seen -> lex_le lo s -> lex_le s t
  | None => forall s, In s seen -> ~ lex_le lo s
  end.

(** What the max-only loop has found once it has gone through [seen]. *)
Definition earliest_of (hi : time) (seen : list time) (r : option time) : Prop :=
  match r with
  | Some t =>
      In t seen /\ lex_le t hi /\ forall s, In s seen -> lex_le s hi -> lex_le t s
  | None => forall s, In s seen -> ~ lex_le s hi
  end.



(** The states left once [priority_order] has no match. *)
Definition calendar_states : list PageState :=
  [CalendarMonthMismatch; DateUnselected; DateSelectedAwaitingNext;
   Unclassified].

(** The snapshots on which a tick gets as far as looking for the calendar
    header. *)
Definition reaches_calendar (args : Args) (s : Snapshot) : Prop :=
  is_empty (title s) = false
  /\ is_empty (page_source s) = false
  /\ str_in (lit "confirm you are human") (page_source s) = false
  /\ terms_block s = None
  /\ email_block s = None
  /\ congested_block s = None
  /\ str_in (lit "Table Reservation") (page_source s) = true
  /\ time_table s = false
  /\ str_in (lit "complete your reservation") (page_source s) = false
  /\ guests_selected s (args_guests args) = true.

(** The snapshots on which a tick gets as far as the time table. *)
Definition reaches_time_table (s : Snapshot) : Prop :=
  is_empty (title s) = false
  /\ is_empty (page_source s) = false
  /\ str_in (lit "confirm you are human") (page_source s) = false
  /\ terms_block s = None
  /\ email_block s = None
  /\ congested_block s = None
  /\ str_in (lit "Table Reservation") (page_source s) = true
  /\ time_table s = true.


(** ** Concrete inputs *)

(** No decimal digits outside ASCII. *)
Definition ascii_only : Z -> option Z := fun _ => None.

(** The text of a slot link, ["<seat>\n<HH:MM>~\n<status>\nAvailable"]. *)
Definition slot_text (seat : Z) (hhmm : string) : str :=
  [seat; 24109; 10] ++ lit hhmm ++ lit "~"
  ++ [10; 31354; 24109; 10] ++ lit "Available".

(** A slot link that shows no time. *)
Definition slot_text_no_time : str :=
  [66; 24109; 10; 31354; 24109; 10] ++ lit "Available".

Definition scenario_A : list time := [hm 10 25; hm 10 40; hm 11 0].
Definition scenario_B : list time := [hm 10 25; hm 10 40].
Definition scenario_C : list time := [hm 9 0; hm 10 0; hm 11 0].

(** Two guests on 31 March 2026, no bounds, no waiting. *)
Definition args_march_31 : Args :=
  mk_args 2 (mk_date 2026 3 31) None None false.

(** Two guests on 25 December 2026, waiting for the opening. *)
Definition args_december_25 : Args :=
  mk_args 2 (mk_date 2026 12 25) None None true.

(** A page on which no element query finds anything. *)
Definition bare_page (page_title content : str) : Snapshot :=
  mk_snapshot page_title content false false false false false []
    (fun _ => false) false None false false (fun _ => None) false.


(** The reservation page before the guest selector is in the page. *)
Definition page_guest_select_absent : Snapshot :=
  bare_page (lit "Reserve") (lit "<h1>Table Reservation</h1>").

(** The time table with two links, one of them showing no time. *)
Definition page_slot_without_time : Snapshot :=
  mk_snapshot (lit "Reserve") (lit "<h1>Table Reservation</h1>")
    false false false false true
    [slot_text 66 "10:25"; slot_text_no_time]
    (fun _ => true) true None false false (fun _ => None) false.

(** The calendar showing February 2026, the header reading
    "2026" + U+5E74 + "2" + U+6708. *)
Definition header_february_2026 : str :=
  lit "2026" ++ [24180] ++ lit "2" ++ [26376].

Definition page_february : Snapshot :=
  mk_snapshot (lit "Reserve") (lit "<h1>Table Reservation</h1>")
    false false false false false []
    (fun _ => true) true (Some header_february_2026) true true
    (fun _ => None) false.

(** Thirty seconds before the reservations for 25 December 2026 open. *)
Definition half_a_minute_before_opening : Z :=
  reservations_open (args_date args_december_25) - seconds 30.

(** A reservation waiting for its completion. *)
Definition page_pending : Snapshot :=
  bare_page (lit "Reserve")
    (lit "Table Reservation: please complete your reservation").

(** A captcha page, title loaded. *)
Definition page_captcha : Snapshot :=
  bare_page (lit "Reserve") (lit "Please confirm you are human").

(** A clock read every ten microseconds. *)
Definition ticking_clock (i : nat) : Z := 10 * Z.of_nat i.

(** ** Further specification predicates *)

(** A slot meets the bounds that are set. *)
Definition meets (min_time max_time : option time) (t : time) : Prop :=
  match min_time with
  | Some lo => time_le lo t = Ok true
  | None => True
  end
  /\ match max_time with
     | Some hi => time_le t hi = Ok true
     | None => True
     end.

(** A list of slots in ascending order. *)
Definition ascending (S : list time) : Prop :=
  StronglySorted (fun a b => time_le a b = Ok true) S.

(** The first match of a slot text is a time that [strptime] accepts. *)
Definition parses (nd_value : Z -> option Z) (text : str) (t : time) : Prop :=
  exists m, re_search nd_value text = Some m /\ strptime_HM nd_value m = Ok t.

(** A time of day to the minute. *)
Definition time_of_day (t : time) : Prop :=
  0 <= hour t <= 23 /\ 0 <= minute t <= 59
  /\ second t = 0 /\ microsecond t = 0.

(** The table of decimal digits gives digits. *)
Definition decimal_values (nd_value : Z -> option Z) : Prop :=
  forall c v, nd_value c = Some v -> 0 <= v <= 9.

(** The events that act on the page: a click or a selection. *)
Definition is_command (ev : event) : bool :=
  match ev with
  | Click _ | SelectByIndex _ => true
  | _ => false
  end.

Definition commands (tr : list event) : nat :=
  List.length (filter is_command tr).

(** How a tick paces the loop: at most one command; every sleep lasts one
    interval; a tick that goes on to the next has sent a command or slept;
    a reload comes last, straight after a sleep. *)
Definition well_paced (o : outcome) : Prop :=
  (commands (trace o) <= 1)%nat
  /\ (forall d, In (Sleep d) (trace o) -> d = interval)
  /\ (ctl o = Continue ->
      commands (trace o) = 1%nat \/ In (Sleep interval) (trace o))
  /\ (In Refresh (trace o) ->
      exists before, trace o = before ++ [Sleep interval; Refresh]).

(** A tick leaves the loop only on the page of a pending reservation, and
    then has done nothing but log it. *)
Definition ends_on_pending (o : outcome) : Prop :=
  (ctl o = Break <-> handler o = ReservationPendingCompletion)
  /\ (ctl o = Break -> trace o = [Log "Reservation waiting for completion."]).

(** ** [wait_until_not_found]

    [page_source_at i] is what the [i]-th read of [driver.page_source]
    gives: a string, [None], or an exception.  One pass of the loop reads
    the property once for the comparison with [None] and, when that is not
    [None], a second time for the search.  [sleep] refuses a negative
    length.  The result is the number of reads made, or the exception that
    leaves the function; fuel bounds the number of passes. *)

Section PageSource.

Variable page_source_at : nat -> result (option str).

Fixpoint wait_until_not_found (fuel : nat) (text_to_find : str)
  (check_interval : Z) (i : nat) : option (result nat * list event) :=
  match fuel with
  | O => None
  | S fuel' =>
      let sleep_and_go_on (next : nat) :=
        if check_interval <? 0 then Some (Raise ValueError, [])
        else
          match wait_until_not_found fuel' text_to_find check_interval next with
          | Some (r, tr) => Some (r, Sleep check_interval :: tr)
          | None => None
          end in
      match page_source_at i with
      | Raise NoSuchElementException => Some (Ok (S i), [])
      | Raise e => Some (Raise e, [])
      | Ok None => sleep_and_go_on (S i)
      | Ok (Some _) =>
          match page_source_at (S i) with
          | Raise NoSuchElementException => Some (Ok (S (S i)), [])
          | Raise e => Some (Raise e, [])
          | Ok None => Some (Raise TypeError, [])
          | Ok (Some source) =>
              if str_in text_to_find source
              then sleep_and_go_on (S (S i))
              else Some (Ok (S (S i)), [])
          end
      end
  end.

End PageSource.

(** ** The checks before the browser starts

    The command line as [argparse] hands it over: [--date], [--start] and
    [--end] already converted.  [choices] are checked by [parse_args]; the
    script then picks the site, checks the bounds, converts the guest count
    and checks the date.  [Ok None] stands for [parser.error]: the script
    exits with a usage message.  What the script prints on the way is left
    out. *)

Record CommandLine : Set := mk_command_line
  { cl_city : str;
    cl_guests : str;
    cl_date : date;
    cl_minTime : option time;
    cl_maxTime : option time;
    cl_wait : bool }.

Fixpoint str_eqb (a b : str) : bool :=
  match a, b with
  | [], [] => true
  | x :: a', y :: b' => (x =? y) && str_eqb a' b'
  | _, _ => false
  end.

Definition city_choices : list str :=
  [lit "tokyo"; lit "osaka"; lit "Tokyo"; lit "Osaka"].

Definition guests_choices : list str :=
  [lit "1"; lit "2"; lit "3"; lit "4"; lit "5"; lit "6"].

(** [s.lower()] on a string of ASCII characters, as the choices are. *)
Definition lower (s : str) : str :=
  map (fun c => if (65 <=? c) && (c <=? 90) then c + 32 else c) s.

Definition tokyo_website : str :=
  lit "https://reserve.pokemon-cafe.jp/reserve/step1".
Definition osaka_website : str :=
  lit "https://osaka.pokemon-cafe.jp/reserve/step1".

Definition startup_checks (cl : CommandLine) (today : date)
  : result (option (str * Args)) :=
  if negb (existsb (str_eqb (cl_city cl)) city_choices) then Ok None
  else if negb (existsb (str_eqb (cl_guests cl)) guests_choices) then Ok None
  else
    match (if str_eqb (lower (cl_city cl)) (lit "tokyo")
           then Some tokyo_website
           else if str_eqb (lower (cl_city cl)) (lit "osaka")
           then Some osaka_website
           else None) with
    | None => Ok None
    | Some website =>
        (inverted <- match cl_minTime cl, cl_maxTime cl with
                     | Some lo, Some hi => time_ge lo hi
                     | _, _ => Ok false
                     end ;;
         if inverted then Ok None
         else
           guests <- py_int (cl_guests cl) ;;
           if date_lt (cl_date cl) today then Ok None
           else Ok (Some (website,
                          mk_args guests (cl_date cl)
                            (cl_minTime cl) (cl_maxTime cl) (cl_wait cl))))%py
    end.

(** The displayed month is earlier, or later, than the requested one. *)
Definition month_earlier (y m : Z) (d : date) : Prop :=
  y < year d \/ (y = year d /\ m < month d).
Definition month_later (y m : Z) (d : date) : Prop :=
  year d < y \/ (y = year d /\ month d < m).

(** ** The classifier of the specification

    Its section 4.2 read as a list of rules: the predicates of items 1 to
    6g in the order they are numbered, each with its state; item 7,
    [Loading]; item 8, [Unclassified], when no rule applies.  The first
    nine rules are those of [priority_order] after its first entry. *)












(** *** The order the loop has

    [Loading] first, then items 1 to 6d; then the calendar: unclassified
    when the header is missing or reads no year and month, item 6e only
    when the loop can act on it, items 6f and 6g. *)






(** The longest sleep taken as accepted: [time.sleep] refuses a length
    whose nanoseconds do not fit 64 bits, a little over 292 years. *)
Definition sleep_max : Z := seconds 9223372036.

(** ** Further concrete inputs *)

(** Two guests on 15 March 2026. *)
Definition args_march_15 : Args :=
  mk_args 2 (mk_date 2026 3 15) None None false.

(** February 2026 displayed without its pagers, the cell of the 15th not
    selected. *)
Definition page_february_no_pager : Snapshot :=
  mk_snapshot (lit "Reserve") (lit "<h1>Table Reservation</h1>")
    false false false false false []
    (fun _ => true) true (Some header_february_2026) false false
    (fun _ => Some (lit "calendar-day-cell")) false.

(** A page source that always shows the text looked for. *)
Definition source_with_captcha (i : nat) : result (option str) :=
  Ok (Some (lit "Please confirm you are human")).

(** A page source that shows it for the first two passes only. *)
Definition source_captcha_solved (i : nat) : result (option str) :=
  if (i <? 4)%nat then Ok (Some (lit "Please confirm you are human"))
  else Ok (Some (lit "Table Reservation")).

(** A command line the checks accept. *)
Definition command_line_tokyo : CommandLine :=
  mk_command_line (lit "Tokyo") (lit "2") (mk_date 2026 12 25)
    (Some (hm 10 30)) (Some (hm 15 0)) true.

(** [hh:mm+09:00]. *)
Definition hm_jst (h m : Z) : time := mk_time h m 0 0 (Some (hours 9)).

(** Two guests on 31 March 2026, not before 10:30+09:00. *)
Definition args_aware_min : Args :=
  mk_args 2 (mk_date 2026 3 31) (Some (hm_jst 10 30)) None false.

(** A time table with two links. *)
Definition page_two_slots : Snapshot :=
  mk_snapshot (lit "Reserve") (lit "<h1>Table Reservation</h1>")
    false false false false true
    [slot_text 66 "10:25"; slot_text 67 "10:40"]
    (fun _ => true) true None false false (fun _ => None) false.


(** A clock that reads two minutes before the opening for
    25 December 2026, then one minute later at each reading. *)
Definition clock_before_opening (i : nat) : Z :=
  reservations_open (mk_date 2026 12 25) - minutes 2 + minutes (Z.of_nat i).

(** A command line with one bound aware and the other naive. *)
Definition command_line_mixed_bounds : CommandLine :=
  mk_command_line (lit "Tokyo") (lit "2") (mk_date 2026 12 25)
    (Some (hm_jst 10 30)) (Some (hm 15 0)) false.

(** ** Proof automation *)

Ltac by_compare :=
  repeat match goal with
         | |- context [?x ?= ?y] => destruct (Z.compare_spec x y)
         end;
  simpl; split; intros; try discriminate; try reflexivity; try lia.

(** Membership in a list of states given by its elements. *)
Ltac in_states :=
  solve [simpl; repeat (first [left; reflexivity | right])].

(** The branches of [tick], in the order of the loop body: [leaf] closes a
    branch that ends in a literal outcome, [on_time_table] and
    [on_calendar] the two branches that go on into a block. *)
Ltac tick_cases s args leaf on_time_table on_calendar :=
  unfold tick, terms_block, email_block, congested_block, table_block;
  destruct (is_empty (title s) || is_empty (page_source s)); [leaf|];
  destruct (str_in (lit "confirm you are human") (page_source s)); [leaf|];
  (destruct (str_in (lit "/ Agree to terms") (page_source s));
   [destruct (agree_checkbox s);
    [destruct (agree_checkbox_label s); leaf|];
    destruct (agree_button s);
    [destruct (str_in (lit "no available seats can be found")
                 (page_source s)); leaf|]
   |]);
  cbn [or_else];
  (destruct (str_in (lit "About Email Address Authentication")
               (page_source s));
   [destruct (continue_button s); [leaf|]|]);
  cbn [or_else];
  (destruct (str_in (lit "congested") (page_source s)); [leaf|]);
  cbn [or_else];
  (destruct (str_in (lit "Table Reservation") (page_source s)); [|leaf]);
  (destruct (time_table s); cbn [or_else]; [on_time_table|]);
  (destruct (str_in (lit "complete your reservation") (page_source s));
   [leaf|]);
  (destruct (guests_selected s (args_guests args)); cbn [negb];
   [|destruct (guest_select s); leaf]);
  (let header_text := fresh "header_text" in
   destruct (calendar_header s) as [header_text|]; cbn [or_else];
   [on_calendar|leaf]).

(** Closes [well_paced] on a literal outcome. *)
Ltac paced :=
  unfold well_paced, commands, sleep_and_refresh;
  cbn [or_else trace ctl filter is_command List.length In];
  split; [lia|];
  split;
  [let d := fresh "d" in
   let Hd := fresh "Hd" in
   intros d Hd;
   repeat (destruct Hd as [Hd|Hd];
           [try discriminate Hd; try (injection Hd as <-; reflexivity)|]);
   destruct Hd|];
  split;
  [let Hc := fresh "Hc" in
   intros Hc; try discriminate Hc;
   first [left; reflexivity | right; tauto]|];
  let Hr := fresh "Hr" in
  intros Hr;
  repeat (destruct Hr as [Hr|Hr]; [try discriminate Hr|]);
  try (destruct Hr; fail);
  first [exists []; reflexivity | eexists [_]; reflexivity
        | eexists [_; _]; reflexivity | eexists [_; _; _]; reflexivity].

(** Closes [ends_on_pending] on a literal outcome. *)
Ltac pending :=
  unfold ends_on_pending, sleep_and_refresh;
  cbn [or_else trace ctl handler];
  split; [split; intros H; first [discriminate H | reflexivity]
         |intros H; first [discriminate H | reflexivity]].

(** * Properties *)

(** ** The order on times *)

Lemma is_le_iff (a b : time) : is_le (time_cmp a b) = true <-> lex_le a b.
Proof. unfold is_le, time_cmp, lex_le, lex. by_compare. Qed.

Lemma is_ge_iff (a b : time) : is_ge (time_cmp a b) = true <-> lex_le b a.
Proof. unfold is_ge, time_cmp, lex_le, lex. by_compare. Qed.

Lemma is_gt_iff (a b : time) : is_gt (time_cmp a b) = true <-> ~ lex_le a b.
Proof. unfold is_gt, time_cmp, lex_le, lex. by_compare. Qed.

Lemma is_lt_iff (a b : time) : is_lt (time_cmp a b) = true <-> ~ lex_le b a.
Proof. unfold is_lt, time_cmp, lex_le, lex. by_compare. Qed.

Lemma lex_le_refl (a : time) : lex_le a a.
Proof. unfold lex_le. lia. Qed.

Lemma lex_le_trans (a b c : time) : lex_le a b -> lex_le b c -> lex_le a c.
Proof. unfold lex_le. lia. Qed.

Lemma lex_le_total (a b : time) : lex_le a b \/ lex_le b a.
Proof. unfold lex_le. lia. Qed.

Lemma lex_le_antisym (a b : time) :
  naive a -> naive b -> lex_le a b -> lex_le b a -> a = b.
Proof.
  destruct a as [h1 m1 s1 u1 o1], b as [h2 m2 s2 u2 o2].
  unfold naive, lex_le. simpl. intros -> -> Hab Hba.
  assert (h1 = h2 /\ m1 = m2 /\ s1 = s2 /\ u1 = u2) as (-> & -> & -> & ->)
    by lia.
  reflexivity.
Qed.

Lemma time_cmp_refl (a : time) : time_cmp a a = Eq.
Proof. unfold time_cmp, lex. now rewrite !Z.compare_refl. Qed.

Lemma time_cmp_eq (a b : time) :
  naive a -> naive b -> (time_cmp a b = Eq <-> a = b).
Proof.
  intros Ha Hb. split.
  - intros H. apply lex_le_antisym; auto.
    + apply is_le_iff. now rewrite H.
    + apply is_ge_iff. now rewrite H.
  - intros ->. apply time_cmp_refl.
Qed.

Lemma not_true_iff (b : bool) : b <> true <-> b = false.
Proof. destruct b; split; congruence. Qed.

(** *** The operators *)

Lemma ordering_naive (test : comparison -> bool) (a b : time) :
  naive a -> naive b -> ordering test a b = Ok (test (time_cmp a b)).
Proof. unfold naive, ordering, py_cmp. now intros -> ->. Qed.

Lemma ordering_raises (test : comparison -> bool) (a b : time) (e : exc) :
  ordering test a b = Raise e -> e = TypeError.
Proof.
  unfold ordering. destruct (py_cmp a b); [discriminate|].
  intros H. now injection H.
Qed.

Lemma ordering_mixed (test : comparison -> bool) (a b : time) :
  mixed a b <-> ordering test a b = Raise TypeError.
Proof.
  unfold mixed, naive, ordering, py_cmp.
  destruct (utcoffset a) as [oa|], (utcoffset b) as [ob|];
    try destruct (oa =? ob); split;
    try discriminate; try reflexivity;
    try (intros [[H1 H2]|[H1 H2]]; congruence).
  - intros _. right. split; congruence.
  - intros _. left. split; congruence.
Qed.

Lemma time_cmp_flip (a b : time) : time_cmp b a = CompOpp (time_cmp a b).
Proof.
  unfold time_cmp, lex.
  rewrite (Z.compare_antisym (hour a)), (Z.compare_antisym (minute a)),
    (Z.compare_antisym (second a)), (Z.compare_antisym (microsecond a)).
  destruct (hour a ?= hour b), (minute a ?= minute b),
    (second a ?= second b), (microsecond a ?= microsecond b); reflexivity.
Qed.

Lemma py_cmp_flip (a b : time) :
  py_cmp b a = option_map CompOpp (py_cmp a b).
Proof.
  unfold py_cmp.
  destruct (utcoffset a) as [oa|], (utcoffset b) as [ob|]; simpl;
    try reflexivity.
  - rewrite (Z.eqb_sym ob oa). destruct (oa =? ob); simpl.
    + now rewrite time_cmp_flip.
    + unfold aware_cmp, lex.
      rewrite (Z.compare_antisym (utc_seconds a oa)),
        (Z.compare_antisym (microsecond a)).
      now destruct (utc_seconds a oa ?= utc_seconds b ob),
        (microsecond a ?= microsecond b).
  - now rewrite time_cmp_flip.
Qed.

(** [a >= b] is [b <= a], and [a > b] is [b < a]. *)
Lemma time_ge_le (a b : time) : time_ge a b = time_le b a.
Proof.
  unfold time_ge, time_le, ordering. rewrite (py_cmp_flip a b).
  destruct (py_cmp a b) as [[]|]; reflexivity.
Qed.

Lemma time_gt_lt (a b : time) : time_gt a b = time_lt b a.
Proof.
  unfold time_gt, time_lt, ordering. rewrite (py_cmp_flip a b).
  destruct (py_cmp a b) as [[]|]; reflexivity.
Qed.

Lemma time_le_refl (a : time) : time_le a a = Ok true.
Proof.
  unfold time_le, ordering, py_cmp.
  destruct (utcoffset a) as [o|]; [rewrite Z.eqb_refl|];
    now rewrite time_cmp_refl.
Qed.

Lemma time_le_iff (a b : time) :
  naive a -> naive b -> (time_le a b = Ok true <-> lex_le a b).
Proof.
  intros Ha Hb. unfold time_le. rewrite (ordering_naive _ a b Ha Hb).
  rewrite <- is_le_iff. split; [intros H; now injection H|now intros ->].
Qed.

Lemma time_le_false_iff (a b : time) :
  naive a -> naive b -> (time_le a b = Ok false <-> ~ lex_le a b).
Proof.
  intros Ha Hb. unfold time_le. rewrite (ordering_naive _ a b Ha Hb).
  rewrite <- is_le_iff. split.
  - intros H. injection H as ->. discriminate.
  - intros H. apply not_true_iff in H. now rewrite H.
Qed.

Lemma time_eq_naive (a b : time) :
  naive a -> naive b -> (time_eq a b = true <-> a = b).
Proof.
  intros Ha Hb. unfold time_eq, py_cmp. rewrite Ha, Hb.
  rewrite <- (time_cmp_eq a b Ha Hb).
  destruct (time_cmp a b); split; congruence.
Qed.

Lemma time_eq_refl (a : time) : time_eq a a = true.
Proof.
  unfold time_eq, py_cmp.
  destruct (utcoffset a) as [o|]; [rewrite Z.eqb_refl|];
    now rewrite time_cmp_refl.
Qed.

(** ** [select_best_time] *)

Lemma first_in_range_spec (lo hi : time) (S : list time) :
  match first_in_range lo hi S with
  | Ok (Some t) =>
      exists pre post,
        S = pre ++ t :: post
        /\ (time_le lo t = Ok true /\ time_le t hi = Ok true)
        /\ forall s, In s pre ->
                     ~ (time_le lo s = Ok true /\ time_le s hi = Ok true)
  | Ok None =>
      forall s, In s S -> ~ (time_le lo s = Ok true /\ time_le s hi = Ok true)
  | Raise e => e = TypeError
  end.
Proof.
  induction S as [|x S IH]; cbn [first_in_range].
  - intros s [].
  - rewrite (time_ge_le x lo).
    destruct (time_le lo x) as [above|e] eqn:Habove; cbn [bind].
    2:{ now apply (ordering_raises _ _ _ _ Habove). }
    assert (Hrest :
              ~ (time_le lo x = Ok true /\ time_le x hi = Ok true) ->
              match first_in_range lo hi S with
              | Ok (Some t) =>
                  exists pre post,
                    x :: S = pre ++ t :: post
                    /\ (time_le lo t = Ok true /\ time_le t hi = Ok true)
                    /\ forall s, In s pre ->
                                 ~ (time_le lo s = Ok true
                                    /\ time_le s hi = Ok true)
              | Ok None =>
                  forall s, In s (x :: S) ->
                            ~ (time_le lo s = Ok true /\ time_le s hi = Ok true)
              | Raise e => e = TypeError
              end).
    { intros Hx. destruct (first_in_range lo hi S) as [[t|]|e]; auto.
      - destruct IH as (pre & post & -> & Ht & Hpre).
        exists (x :: pre), post. split; [reflexivity|]. split; [exact Ht|].
        intros s [<-|Hs]; auto.
      - intros s [<-|Hs]; auto. }
    destruct above.
    + destruct (time_le x hi) as [within|e] eqn:Hwithin; cbn [bind].
      2:{ now apply (ordering_raises _ _ _ _ Hwithin). }
      destruct within.
      * exists [], S. split; [reflexivity|]. split; [now split|].
        intros s [].
      * apply Hrest. intros [_ H]. congruence.
    + cbn [bind]. apply Hrest. intros [H _]. congruence.
Qed.

(** Among naive times no comparison raises. *)
Lemma first_in_range_naive (lo hi : time) (S : list time) :
  Forall naive S -> naive lo -> naive hi ->
  exists r, first_in_range lo hi S = Ok r.
Proof.
  intros HS Hlo Hhi. induction HS as [|x S Hx _ IH]; cbn [first_in_range].
  - eauto.
  - unfold time_ge, time_le.
    rewrite (ordering_naive _ x lo Hx Hlo). cbn [bind].
    destruct (is_ge (time_cmp x lo)).
    + rewrite (ordering_naive _ x hi Hx Hhi). cbn [bind].
      destruct (is_le (time_cmp x hi)); eauto.
    + cbn [bind]. exact IH.
Qed.

Lemma latest_from_inv (lo : time) (S : list time) :
  Forall naive S -> naive lo ->
  forall seen acc,
    (forall l, acc = Some l -> naive l) ->
    latest_of lo seen acc ->
    exists r,
      latest_from lo S acc = Ok r
      /\ latest_of lo (seen ++ S) r
      /\ (forall l, r = Some l -> naive l).
Proof.
  intros HS Hlo. induction HS as [|x S Hx _ IH]; intros seen acc Hnaive Hacc.
  - exists acc. cbn [latest_from]. now rewrite app_nil_r.
  - cbn [latest_from]. unfold time_ge, time_gt.
    rewrite (ordering_naive _ x lo Hx Hlo). cbn [bind].
    replace (seen ++ x :: S) with ((seen ++ [x]) ++ S)
      by (now rewrite <- app_assoc).
    destruct (is_ge (time_cmp x lo)) eqn:Hge.
    + apply is_ge_iff in Hge. destruct acc as [l|]; simpl in Hacc.
      * destruct Hacc as (Hin & Hl & Hmax).
        rewrite (ordering_naive _ x l Hx (Hnaive l eq_refl)). cbn [bind].
        destruct (is_gt (time_cmp x l)) eqn:Hgt.
        -- apply is_gt_iff in Hgt.
           assert (Hlx : lex_le l x) by (destruct (lex_le_total l x); tauto).
           apply IH; [intros ? H; now injection H as <-|]. simpl.
           split; [apply in_or_app; right; now left|]. split; auto.
           intros s Hs Hls. apply in_app_or in Hs. destruct Hs as [Hs|[<-|[]]].
           ++ eapply lex_le_trans; eauto.
           ++ apply lex_le_refl.
        -- assert (Hxl : lex_le x l).
           { destruct (is_le (time_cmp x l)) eqn:E; [now apply is_le_iff|].
             apply not_true_iff in Hgt, E. exfalso. apply Hgt.
             apply is_gt_iff. intros H'. apply E. now apply is_le_iff. }
           apply IH; [exact Hnaive|]. simpl.
           split; [apply in_or_app; now left|]. split; auto.
           intros s Hs Hls. apply in_app_or in Hs.
           destruct Hs as [Hs|[<-|[]]]; auto.
      * cbn [bind]. apply IH; [intros ? H; now injection H as <-|]. simpl.
        split; [apply in_or_app; right; now left|]. split; auto.
        intros s Hs Hls. apply in_app_or in Hs. destruct Hs as [Hs|[<-|[]]].
        -- now apply Hacc in Hs.
        -- apply lex_le_refl.
    + assert (Hnot : ~ lex_le lo x).
      { intros H. apply is_ge_iff in H. congruence. }
      cbn [bind]. apply IH; [exact Hnaive|].
      destruct acc as [l|]; simpl in *.
      * destruct Hacc as (Hin & Hl & Hmax).
        split; [apply in_or_app; now left|]. split; auto.
        intros s Hs Hls. apply in_app_or in Hs.
        destruct Hs as [Hs|[<-|[]]]; auto. contradiction.
      * intros s Hs. apply in_app_or in Hs. destruct Hs as [Hs|[<-|[]]]; auto.
Qed.

Lemma earliest_upto_inv (hi : time) (S : list time) :
  Forall naive S -> naive hi ->
  forall seen acc,
    (forall e, acc = Some e -> naive e) ->
    earliest_of hi seen acc ->
    exists r,
      earliest_upto hi S acc = Ok r
      /\ earliest_of hi (seen ++ S) r
      /\ (forall e, r = Some e -> naive e).
Proof.
  intros HS Hhi. induction HS as [|x S Hx _ IH]; intros seen acc Hnaive Hacc.
  - exists acc. cbn [earliest_upto]. now rewrite app_nil_r.
  - cbn [earliest_upto]. unfold time_le, time_lt.
    rewrite (ordering_naive _ x hi Hx Hhi). cbn [bind].
    replace (seen ++ x :: S) with ((seen ++ [x]) ++ S)
      by (now rewrite <- app_assoc).
    destruct (is_le (time_cmp x hi)) eqn:Hle.
    + apply is_le_iff in Hle. destruct acc as [e|]; simpl in Hacc.
      * destruct Hacc as (Hin & He & Hmin).
        rewrite (ordering_naive _ x e Hx (Hnaive e eq_refl)). cbn [bind].
        destruct (is_lt (time_cmp x e)) eqn:Hlt.
        -- apply is_lt_iff in Hlt.
           assert (Hxe : lex_le x e) by (destruct (lex_le_total x e); tauto).
           apply IH; [intros ? H; now injection H as <-|]. simpl.
           split; [apply in_or_app; right; now left|]. split; auto.
           intros s Hs Hsh. apply in_app_or in Hs. destruct Hs as [Hs|[<-|[]]].
           ++ eapply lex_le_trans; eauto.
           ++ apply lex_le_refl.
        -- assert (Hex : lex_le e x).
           { destruct (is_le (time_cmp e x)) eqn:E; [now apply is_le_iff|].
             apply not_true_iff in Hlt, E. exfalso. apply Hlt.
             apply is_lt_iff. intros H'. apply E. now apply is_le_iff. }
           apply IH; [exact Hnaive|]. simpl.
           split; [apply in_or_app; now left|]. split; auto.
           intros s Hs Hsh. apply in_app_or in Hs.
           destruct Hs as [Hs|[<-|[]]]; auto.
      * cbn [bind]. apply IH; [intros ? H; now injection H as <-|]. simpl.
        split; [apply in_or_app; right; now left|]. split; auto.
        intros s Hs Hsh. apply in_app_or in Hs. destruct Hs as [Hs|[<-|[]]].
        -- now apply Hacc in Hs.
        -- apply lex_le_refl.
    + assert (Hnot : ~ lex_le x hi).
      { intros H. apply is_le_iff in H. congruence. }
      cbn [bind]. apply IH; [exact Hnaive|].
      destruct acc as [e|]; simpl in *.
      * destruct Hacc as (Hin & He & Hmin).
        split; [apply in_or_app; now left|]. split; auto.
        intros s Hs Hsh. apply in_app_or in Hs.
        destruct Hs as [Hs|[<-|[]]]; auto. contradiction.
      * intros s Hs. apply in_app_or in Hs. destruct Hs as [Hs|[<-|[]]]; auto.
Qed.

Lemma select_best_time_first (S : list time) (lo hi : time) :
  select_best_time S (Some lo) (Some hi) = first_in_range lo hi S.
Proof. now destruct S. Qed.

Lemma select_best_time_latest (S : list time) (lo : time) :
  Forall naive S -> naive lo ->
  exists r,
    select_best_time S (Some lo) None = Ok r /\ latest_of lo S r.
Proof.
  intros HS Hlo. destruct S as [|x S]; [exists None; split; auto; intros s []|].
  change (select_best_time (x :: S) (Some lo) None)
    with (latest_from lo (x :: S) None).
  destruct (latest_from_inv lo (x :: S) HS Hlo [] None) as (r & Hr & Hof & _).
  - discriminate.
  - intros s [].
  - exists r. auto.
Qed.

Lemma select_best_time_earliest (S : list time) (hi : time) :
  Forall naive S -> naive hi ->
  exists r,
    select_best_time S None (Some hi) = Ok r /\ earliest_of hi S r.
Proof.
  intros HS Hhi. destruct S as [|x S]; [exists None; split; auto; intros s []|].
  change (select_best_time (x :: S) None (Some hi))
    with (earliest_upto hi (x :: S) None).
  destruct (earliest_upto_inv hi (x :: S) HS Hhi [] None) as (r & Hr & Hof & _).
  - discriminate.
  - intros s [].
  - exists r. auto.
Qed.

Lemma first_in_range_raises (lo hi : time) (S : list time) (e : exc) :
  first_in_range lo hi S = Raise e ->
  e = TypeError /\ exists s, In s S /\ (mixed s lo \/ mixed s hi).
Proof.
  induction S as [|x S IH]; cbn [first_in_range]; [discriminate|].
  destruct (time_ge x lo) as [above|e'] eqn:Habove; cbn [bind].
  2:{ intros H. injection H as <-.
      pose proof (ordering_raises _ _ _ _ Habove) as ->.
      split; [reflexivity|]. exists x. split; [now left|]. left.
      now apply (ordering_mixed is_ge). }
  assert (Hrest : first_in_range lo hi S = Raise e ->
                  e = TypeError
                  /\ exists s, In s (x :: S) /\ (mixed s lo \/ mixed s hi)).
  { intros H. destruct (IH H) as (He & s & Hs & Hmixed).
    split; [exact He|]. exists s. split; [now right|exact Hmixed]. }
  destruct above; cbn [bind]; [|exact Hrest].
  destruct (time_le x hi) as [within|e'] eqn:Hwithin; cbn [bind].
  2:{ intros H. injection H as <-.
      pose proof (ordering_raises _ _ _ _ Hwithin) as ->.
      split; [reflexivity|]. exists x. split; [now left|]. right.
      now apply (ordering_mixed is_le). }
  destruct within; [discriminate|exact Hrest].
Qed.

(** Slots without offset between a lower bound without and an upper bound
    with: the comparison with the upper bound raises as soon as a slot is
    not earlier than the lower one. *)
Lemma first_in_range_aware_hi (lo hi : time) (S : list time) :
  Forall naive S -> naive lo -> ~ naive hi ->
  match first_in_range lo hi S with
  | Ok r => r = None /\ forall s, In s S -> time_le lo s = Ok false
  | Raise e => e = TypeError /\ exists s, In s S /\ time_le lo s = Ok true
  end.
Proof.
  intros HS Hlo Hhi. induction HS as [|x S Hx _ IH]; cbn [first_in_range].
  - split; [reflexivity|]. intros s [].
  - rewrite (time_ge_le x lo).
    assert (Hle : time_le lo x = Ok (is_le (time_cmp lo x)))
      by (now apply ordering_naive).
    rewrite Hle. cbn [bind]. destruct (is_le (time_cmp lo x)).
    + assert (Hraise : time_le x hi = Raise TypeError)
        by (apply ordering_mixed; left; now split).
      rewrite Hraise. cbn [bind]. split; [reflexivity|].
      exists x. split; [now left|exact Hle].
    + cbn [bind]. destruct (first_in_range lo hi S) as [r|e].
      * destruct IH as [-> Hall]. split; [reflexivity|].
        intros s [<-|Hs]; auto.
      * destruct IH as (-> & s & Hs & Hle'). split; [reflexivity|].
        exists s. split; [now right|exact Hle'].
Qed.

(** A lower bound with offset, or an upper one when no lower bound is set,
    against slots without: the first comparison raises. *)
Lemma select_best_time_aware_bound (x : time) (S : list time)
  (min_time max_time : option time) :
  naive x ->
  (exists lo, min_time = Some lo /\ ~ naive lo)
  \/ (min_time = None /\ exists hi, max_time = Some hi /\ ~ naive hi) ->
  select_best_time (x :: S) min_time max_time = Raise TypeError.
Proof.
  intros Hx [(lo & -> & Hlo)|(-> & hi & -> & Hhi)].
  - assert (Hge : time_ge x lo = Raise TypeError)
      by (apply ordering_mixed; left; split; assumption).
    destruct max_time as [hi|]; cbn [select_best_time first_in_range latest_from];
      now rewrite Hge.
  - assert (Hle : time_le x hi = Raise TypeError)
      by (apply ordering_mixed; left; split; assumption).
    cbn [select_best_time earliest_upto]. now rewrite Hle.
Qed.

(** C1, as the function has it.  With both bounds set, whenever
    [select_best_time] returns, it returns the first slot of the list, in
    listed order, that lies between the bounds (inclusive): the list splits
    around it and no slot before it is in range; and it returns [None]
    exactly when no slot of the list is in range.  It raises only
    [TypeError], and only when it has compared a slot with a bound of which
    one carries a UTC offset and the other does not: never, then, when
    neither the slots nor the bounds carry one.  With slots that carry
    none, as the script extracts them, it does raise on every non-empty
    list when the lower bound carries an offset, and, when the upper bound
    alone carries one, as soon as a slot is not earlier than the lower
    bound. *)
Theorem select_best_time_both_bounds (S : list time) (lo hi : time) :
  match select_best_time S (Some lo) (Some hi) with
  | Ok (Some t) =>
      exists pre post,
        S = pre ++ t :: post
        /\ (time_le lo t = Ok true /\ time_le t hi = Ok true)
        /\ forall s, In s pre ->
                     ~ (time_le lo s = Ok true /\ time_le s hi = Ok true)
  | Ok None =>
      forall s, In s S -> ~ (time_le lo s = Ok true /\ time_le s hi = Ok true)
  | Raise e =>
      e = TypeError /\ exists s, In s S /\ (mixed s lo \/ mixed s hi)
  end
  /\ (Forall naive S -> naive lo -> naive hi ->
      exists r, select_best_time S (Some lo) (Some hi) = Ok r)
  /\ (Forall naive S -> S <> [] -> ~ naive lo ->
      select_best_time S (Some lo) (Some hi) = Raise TypeError)
  /\ (Forall naive S -> naive lo -> ~ naive hi ->
      match select_best_time S (Some lo) (Some hi) with
      | Ok r => r = None /\ forall s, In s S -> time_le lo s = Ok false
      | Raise e => e = TypeError /\ exists s, In s S /\ time_le lo s = Ok true
      end).
Proof.
  rewrite select_best_time_first. split; [|split; [|split]].
  - pose proof (first_in_range_spec lo hi S) as Hspec.
    destruct (first_in_range lo hi S) as [r|e] eqn:Hrun; [exact Hspec|].
    now apply first_in_range_raises.
  - apply first_in_range_naive.
  - intros HS Hne Hlo. destruct S as [|x S]; [now elim Hne|].
    inversion HS; subst. rewrite <- select_best_time_first.
    apply select_best_time_aware_bound; eauto.
  - apply first_in_range_aware_hi.
Qed.

Lemma select_best_time_both_bounds_scenario_C :
  (exists r, select_best_time scenario_C (Some (hm 9 30)) (Some (hm 10 30))
             = Ok r)
  /\ select_best_time scenario_C (Some (hm_jst 9 30)) (Some (hm 10 30))
     = Raise TypeError.
Proof.
  assert (HS : Forall naive scenario_C) by (repeat constructor).
  split.
  - apply (proj1 (proj2 (select_best_time_both_bounds scenario_C
                           (hm 9 30) (hm 10 30))) HS);
      reflexivity.
  - apply (proj1 (proj2 (proj2 (select_best_time_both_bounds scenario_C
                                  (hm_jst 9 30) (hm 10 30)))) HS);
      discriminate.
Defined.

(** C1, as the specification has it, fails: with bounds that carry a UTC
    offset, as [--start 09:30+09:00 --end 10:30+09:00] gives them, the
    first comparison with a slot raises [TypeError], although 10:00 lies
    between the bounds. *)
Lemma select_best_time_both_bounds_aware_raises :
  select_best_time scenario_C (Some (hm_jst 9 30)) (Some (hm_jst 10 30))
  = Raise TypeError.
Proof. reflexivity. Qed.

(** C2, as the function has it.  For slots without UTC offset, as the
    script extracts them, with only the lower bound set: when the bound
    carries no offset either, [select_best_time] returns the greatest of
    the slots that are not earlier than the bound, and [None] when there is
    no such slot, and it does not raise; when the bound carries an offset,
    it raises [TypeError] on every non-empty list.  On 10:25, 10:40, 11:00
    with bound 10:30 it returns 11:00. *)
Theorem select_best_time_min_only (S : list time) (lo : time) :
  (Forall naive S -> naive lo ->
   match select_best_time S (Some lo) None with
   | Ok (Some t) =>
       In t S /\ time_le lo t = Ok true
       /\ forall s, In s S -> time_le lo s = Ok true -> time_le s t = Ok true
   | Ok None => forall s, In s S -> time_le lo s = Ok false
   | Raise _ => False
   end)
  /\ (Forall naive S -> S <> [] -> ~ naive lo ->
      select_best_time S (Some lo) None = Raise TypeError)
  /\ select_best_time scenario_A (Some (hm 10 30)) None = Ok (Some (hm 11 0)).
Proof.
  split; [|split; [|reflexivity]].
  - intros HS Hlo.
    destruct (select_best_time_latest S lo HS Hlo) as (r & -> & H).
    rewrite Forall_forall in HS.
    destruct r as [t|]; simpl in H.
    + destruct H as (Hin & Hl & Hmax). repeat split; auto.
      * apply time_le_iff; auto.
      * intros s Hs Hls. apply time_le_iff; auto. apply Hmax; auto.
        apply (time_le_iff lo s); auto.
    + intros s Hs. apply time_le_false_iff; auto.
  - intros HS Hne Hlo. destruct S as [|x S]; [now elim Hne|].
    inversion HS; subst. apply select_best_time_aware_bound; eauto.
Qed.

Lemma select_best_time_min_only_scenario_A :
  (In (hm 11 0) scenario_A /\ time_le (hm 10 30) (hm 11 0) = Ok true)
  /\ select_best_time scenario_A (Some (hm_jst 10 30)) None = Raise TypeError.
Proof.
  assert (HS : Forall naive scenario_A) by (repeat constructor).
  split.
  - destruct (proj1 (select_best_time_min_only scenario_A (hm 10 30))
                HS eq_refl)
      as (Hin & Hle & _).
    split; [exact Hin|exact Hle].
  - apply (proj1 (proj2 (select_best_time_min_only scenario_A
                           (hm_jst 10 30))) HS);
      discriminate.
Defined.

(** C2, as the specification has it, fails: with a lower bound that
    carries a UTC offset, as [--start 10:30+09:00] gives it, the first
    comparison raises [TypeError], although 11:00 is the greatest slot not
    earlier than the bound. *)
Lemma select_best_time_min_only_aware_raises :
  select_best_time scenario_A (Some (hm_jst 10 30)) None = Raise TypeError.
Proof. reflexivity. Qed.

(** C3, as the function has it.  For slots without UTC offset, as the
    script extracts them, with only the upper bound set: when the bound
    carries no offset either, [select_best_time] returns the least of the
    slots that are not later than the bound, and [None] when there is no
    such slot, and it does not raise; when the bound carries an offset, it
    raises [TypeError] on every non-empty list.  On 10:25, 10:40 with bound
    10:30 it returns 10:25. *)
Theorem select_best_time_max_only (S : list time) (hi : time) :
  (Forall naive S -> naive hi ->
   match select_best_time S None (Some hi) with
   | Ok (Some t) =>
       In t S /\ time_le t hi = Ok true
       /\ forall s, In s S -> time_le s hi = Ok true -> time_le t s = Ok true
   | Ok None => forall s, In s S -> time_le s hi = Ok false
   | Raise _ => False
   end)
  /\ (Forall naive S -> S <> [] -> ~ naive hi ->
      select_best_time S None (Some hi) = Raise TypeError)
  /\ select_best_time scenario_B None (Some (hm 10 30)) = Ok (Some (hm 10 25)).
Proof.
  split; [|split; [|reflexivity]].
  - intros HS Hhi.
    destruct (select_best_time_earliest S hi HS Hhi) as (r & -> & H).
    rewrite Forall_forall in HS.
    destruct r as [t|]; simpl in H.
    + destruct H as (Hin & Hh & Hmin). repeat split; auto.
      * apply time_le_iff; auto.
      * intros s Hs Hsh. apply time_le_iff; auto. apply Hmin; auto.
        apply (time_le_iff s hi); auto.
    + intros s Hs. apply time_le_false_iff; auto.
  - intros HS Hne Hhi. destruct S as [|x S]; [now elim Hne|].
    inversion HS; subst. apply select_best_time_aware_bound; eauto.
Qed.

Lemma select_best_time_max_only_scenario_B :
  (In (hm 10 25) scenario_B /\ time_le (hm 10 25) (hm 10 30) = Ok true)
  /\ select_best_time scenario_B None (Some (hm_jst 10 30)) = Raise TypeError.
Proof.
  assert (HS : Forall naive scenario_B) by (repeat constructor).
  split.
  - destruct (proj1 (select_best_time_max_only scenario_B (hm 10 30))
                HS eq_refl)
      as (Hin & Hle & _).
    split; [exact Hin|exact Hle].
  - apply (proj1 (proj2 (select_best_time_max_only scenario_B
                           (hm_jst 10 30))) HS);
      discriminate.
Defined.

(** C3, as the specification has it, fails: with an upper bound that
    carries a UTC offset, as [--end 10:30+09:00] gives it, the first
    comparison raises [TypeError], although 10:25 is the least slot not
    later than the bound. *)
Lemma select_best_time_max_only_aware_raises :
  select_best_time scenario_B None (Some (hm_jst 10 30)) = Raise TypeError.
Proof. reflexivity. Qed.

(** C4.  On the empty list [select_best_time] selects nothing, whatever the
    bounds; on a non-empty list with no bound set it returns the first
    slot. *)
Theorem select_best_time_empty_or_unbounded :
  (forall lo hi : option time, select_best_time [] lo hi = Ok None)
  /\ (forall (s : time) (S : list time),
        select_best_time (s :: S) None None = Ok (Some s)).
Proof. split; reflexivity. Qed.

(** Scenario C of the specification. *)
Example select_best_time_scenario_C :
  select_best_time scenario_C (Some (hm 9 30)) (Some (hm 10 30))
  = Ok (Some (hm 10 0)).
Proof. reflexivity. Qed.
(** ** The loop *)

(** A tick that raises ends the loop with what its [except] clauses make
    of the exception. *)
Lemma main_loop_raised (nd_value : Z -> option Z) (args : Args)
  (fuel : nat) (pages : nat -> Snapshot) (i : nat) (e : exc) :
  ctl (tick nd_value args (pages i)) = Raised e ->
  main_loop nd_value args (S fuel) pages i
  = Some (on_exception e, trace (tick nd_value args (pages i))).
Proof. intros H. cbn [main_loop]. now rewrite H. Qed.

Lemma main_loop_break (nd_value : Z -> option Z) (args : Args)
  (fuel : nat) (pages : nat -> Snapshot) (i : nat) :
  ctl (tick nd_value args (pages i)) = Break ->
  main_loop nd_value args (S fuel) pages i
  = Some (Completed, trace (tick nd_value args (pages i))).
Proof. intros H. cbn [main_loop]. now rewrite H. Qed.

(** ** Slot extraction *)

Section ExtractionFacts.

Variable nd_value : Z -> option Z.

(** The loop appends one time per text, in the order of the texts, as long
    as every text has a match that [strptime] accepts. *)
Lemma extract_times_all_parse (texts : list str) :
  forall (times acc : list time),
    Forall2 (fun text t =>
               exists m, re_search nd_value text = Some m
                         /\ strptime_HM nd_value m = Ok t) texts times ->
    extract_times nd_value texts acc = Ok (acc ++ times).
Proof.
  induction texts as [|text texts IH]; intros times acc H; inversion H; subst.
  - simpl. now rewrite app_nil_r.
  - destruct H2 as (m & Hm & Ht). simpl. rewrite Hm. simpl. rewrite Ht. simpl.
    rewrite (IH _ _ H4). now rewrite <- app_assoc.
Qed.

(** A text without a match ends the loop with [TypeError], whatever comes
    after it, provided the texts before it parse. *)
Lemma extract_times_no_match (before after : list str) (text : str) :
  forall (times acc : list time),
    Forall2 (fun text t =>
               exists m, re_search nd_value text = Some m
                         /\ strptime_HM nd_value m = Ok t) before times ->
    re_search nd_value text = None ->
    extract_times nd_value (before ++ text :: after) acc = Raise TypeError.
Proof.
  induction before as [|b before IH]; intros times acc H Hnone;
    inversion H; subst; simpl.
  - now rewrite Hnone.
  - destruct H2 as (m & Hm & Ht). rewrite Hm. simpl. rewrite Ht. simpl.
    now apply (IH _ _ H4).
Qed.

(** The loop never drops a text: it returns as many times as it was given
    texts, or raises. *)
Lemma extract_times_length (texts : list str) :
  forall (acc times : list time),
    extract_times nd_value texts acc = Ok times ->
    List.length times = (List.length acc + List.length texts)%nat.
Proof.
  induction texts as [|text texts IH]; intros acc times H; simpl in *.
  - injection H as <-. lia.
  - destruct (re_search nd_value text) as [m|]; [|discriminate].
    simpl in H. destruct (strptime_HM nd_value m) as [t|e]; [|discriminate].
    simpl in H. apply IH in H. rewrite H, length_app. simpl. lia.
Qed.

End ExtractionFacts.

(** C5.  On two slot links of which the second shows no time, the search
    finds nothing in the second text and the extraction loop raises
    [TypeError] instead of dropping the element silently; the tick and the
    loop end with that exception uncaught, after logging the texts
    found. *)
Theorem extraction_raises_on_text_without_time
  (nd_value : Z -> option Z) (args : Args) :
  re_search nd_value slot_text_no_time = None
  /\ extract_times nd_value [slot_text 66 "10:25"; slot_text_no_time] []
     = Raise TypeError
  /\ tick nd_value args page_slot_without_time
     = out TimeSlotListPresent
         [LogFound [slot_text 66 "10:25"; slot_text_no_time]]
         (Raised TypeError)
  /\ forall (fuel i : nat),
       main_loop nd_value args (S fuel) (fun _ => page_slot_without_time) i
       = Some (Uncaught TypeError,
               [LogFound [slot_text 66 "10:25"; slot_text_no_time]]).
Proof.
  assert (Hnone : re_search nd_value slot_text_no_time = None).
  { cbv. destruct (nd_value 24109), (nd_value 31354); reflexivity. }
  assert (Hex : extract_times nd_value
                  [slot_text 66 "10:25"; slot_text_no_time] []
                = Raise TypeError).
  { apply (extract_times_no_match nd_value [slot_text 66 "10:25"] []
             slot_text_no_time [hm 10 25] []); [|exact Hnone].
    constructor; [|constructor]. exists (49, 48, 50, 53). split.
    - cbv. destruct (nd_value 24109); reflexivity.
    - reflexivity. }
  assert (Htick : tick nd_value args page_slot_without_time
                  = out TimeSlotListPresent
                      [LogFound [slot_text 66 "10:25"; slot_text_no_time]]
                      (Raised TypeError)).
  { cbv -[extract_times slot_text slot_text_no_time str select_best_time
           index_of].
    now rewrite Hex. }
  repeat split; auto.
  intros fuel i.
  rewrite (main_loop_raised nd_value args fuel _ i TypeError);
    now rewrite Htick.
Qed.

(** The same loop stops with [ValueError] on a link whose first match is
    no time of day. *)
Example extraction_raises_on_impossible_time (nd_value : Z -> option Z) :
  extract_times nd_value [lit "25:00"] [] = Raise ValueError.
Proof. reflexivity. Qed.

(** Two well-formed links give their two times in listed order. *)
Example extraction_of_two_links :
  extract_times ascii_only [slot_text 66 "10:25"; slot_text 67 "10:40"] []
  = Ok [hm 10 25; hm 10 40].
Proof. reflexivity. Qed.

(** ** Missing elements *)

(** C6.  On a reservation page where no option for the requested guest
    count is selected and no element named "guest" exists, the tick logs
    "Selecting the number of guests." and raises
    [NoSuchElementException], which no [except] clause of the loop
    catches: the script ends there instead of warning, sleeping and
    retrying. *)
Theorem guest_select_absent_raises (nd_value : Z -> option Z) (args : Args) :
  tick nd_value args page_guest_select_absent
  = out GuestUnset [Log "Selecting the number of guests."]
      (Raised NoSuchElementException)
  /\ forall (fuel i : nat),
       main_loop nd_value args (S fuel) (fun _ => page_guest_select_absent) i
       = Some (Uncaught NoSuchElementException,
               [Log "Selecting the number of guests."]).
Proof.
  assert (Htick : tick nd_value args page_guest_select_absent
                  = out GuestUnset [Log "Selecting the number of guests."]
                      (Raised NoSuchElementException)) by reflexivity.
  split; [exact Htick|]. intros fuel i.
  rewrite (main_loop_raised nd_value args fuel _ i NoSuchElementException);
    now rewrite Htick.
Qed.

(** ** The order of the checks *)

Section ClassifierFacts.

Variable nd_value : Z -> option Z.
Variable args : Args.

Lemma handler_time_table_block (s : Snapshot) :
  handler (time_table_block nd_value args s)
  = match time_slot_elements s with
    | [] => NoTimeSlotsListed
    | _ :: _ => TimeSlotListPresent
    end.
Proof.
  unfold time_table_block.
  destruct (time_slot_elements s) as [|text texts]; [reflexivity|].
  destruct (extract_times nd_value (text :: texts) []) as [time_slots|e];
    [|reflexivity].
  destruct (select_best_time time_slots (args_minTime args) (args_maxTime args))
    as [[best|]|e]; try reflexivity.
  destruct (index_of best time_slots) as [idx|]; [|reflexivity].
  now destruct (idx <? List.length (text :: texts))%nat.
Qed.

Lemma handler_date_cell_block (s : Snapshot) :
  In (handler (date_cell_block args s)) calendar_states.
Proof using args.
  unfold date_cell_block, calendar_states.
  destruct (date_cell s (day (args_date args))) as [class|]; [|in_states].
  destruct (negb (str_in (lit "selected") class)); [in_states|].
  destruct (next_button s); in_states.
Qed.

Lemma handler_calendar_block (s : Snapshot) (header_text : str) :
  In (handler (calendar_block args s header_text)) calendar_states.
Proof using args.
  unfold calendar_block.
  destruct (re_split_non_digits header_text) as [|y [|m rest]];
    try (in_states).
  destruct (py_int y) as [selected_year|e]; [|in_states].
  destruct (py_int m) as [selected_month|e]; [|in_states].
  destruct (negb (selected_year =? year (args_date args))
            || negb (selected_month =? month (args_date args)));
    [|apply handler_date_cell_block].
  unfold month_pager_block, bind.
  destruct (date_new selected_year selected_month (day (args_date args)))
    as [shown|e]; [|in_states].
  destruct (date_lt shown (args_date args)).
  - destruct (next_month_button s);
      [in_states|apply handler_date_cell_block].
  - destruct (date_gt shown (args_date args));
      [|apply handler_date_cell_block].
    destruct (previous_month_button s);
      [in_states|apply handler_date_cell_block].
Qed.

(** The tick on a snapshot that reaches the calendar. *)
Lemma tick_reaches_calendar (s : Snapshot) :
  reaches_calendar args s ->
  tick nd_value args s
  = match calendar_header s with
    | Some header_text => calendar_block args s header_text
    | None => sleep_and_refresh
    end.
Proof.
  intros (Ht & Hp & Hc & Hterms & Hemail & Hcong & Htab & Htt & Hdone & Hg).
  unfold tick, table_block.
  rewrite Ht, Hp, Hc, Hterms, Hemail, Hcong, Htab, Htt, Hdone, Hg.
  cbn [orb negb or_else].
  now destruct (calendar_header s).
Qed.

End ClassifierFacts.


(** ** The waiter *)

Section WaiterFacts.

Variable clock : nat -> Z.
Variable target : Z.

Lemma wait_until_datetime_step (fuel i : nat) :
  wait_until_datetime clock (S fuel) target i
  = if clock i >=? target then Some (i, [Log "Target time reached!"])
    else match wait_until_datetime clock fuel target (S i) with
         | Some (k, tr) => Some (k, Sleep (target - clock i) :: tr)
         | None => None
         end.
Proof. reflexivity. Qed.

Lemma wait_until_datetime_returned (fuel : nat) :
  forall (i k : nat) (tr : list event),
    wait_until_datetime clock fuel target i = Some (k, tr) ->
    (i <= k)%nat
    /\ target <= clock k
    /\ (forall j, (i <= j < k)%nat -> clock j < target)
    /\ tr = map (fun j => Sleep (target - clock j)) (seq i (k - i))
            ++ [Log "Target time reached!"].
Proof.
  induction fuel as [|fuel IH]; intros i k tr H; simpl in H; [discriminate|].
  destruct (clock i >=? target) eqn:Hnow.
  - injection H as <- <-. apply Z.geb_le in Hnow.
    rewrite Nat.sub_diag. repeat split; auto; intros; lia.
  - destruct (wait_until_datetime clock fuel target (S i)) as [[k' tr']|] eqn:Hrec;
      [|discriminate].
    injection H as <- <-.
    destruct (IH _ _ _ Hrec) as (Hle & Hk & Hbefore & ->).
    assert (Hi : clock i < target).
    { destruct (Z.geb_spec (clock i) target); [discriminate|lia]. }
    repeat split; auto; try lia.
    + intros j Hj. destruct (Nat.eq_dec j i) as [->|Hne]; auto.
      apply Hbefore. lia.
    + replace (k' - i)%nat with (S (k' - S i)) by lia. reflexivity.
Qed.

Lemma wait_until_datetime_returns (n : nat) :
  forall i : nat,
    (i <= n)%nat -> target <= clock n ->
    exists k tr,
      wait_until_datetime clock (S (n - i)) target i = Some (k, tr)
      /\ (k <= n)%nat.
Proof.
  intros i Hi Hn. remember (n - i)%nat as d eqn:Hd.
  revert i Hi Hd. induction d as [|d IH]; intros i Hi Hd.
  - assert (i = n) as -> by lia. rewrite wait_until_datetime_step.
    destruct (Z.geb_spec (clock n) target); [|lia]. eauto.
  - rewrite wait_until_datetime_step.
    destruct (clock i >=? target); [exists i; eexists; split; [reflexivity|lia]|].
    destruct (IH (S i)) as (k & tr & Hrun & Hk); try lia.
    rewrite Hrun. eauto.
Qed.

End WaiterFacts.

(** C8.  [wait_until_datetime] returns only at a reading [k] of the clock
    that has reached the target, every reading before it being short of the
    target; it has then slept, after each of those readings, for exactly
    the target less the reading, and not at all when the first reading has
    already reached the target.  And it does return, by the first reading
    that has reached the target. *)
Theorem wait_until_datetime_not_early (clock : nat -> Z) (target : Z) :
  (forall (fuel i k : nat) (tr : list event),
      wait_until_datetime clock fuel target i = Some (k, tr) ->
      (i <= k)%nat
      /\ target <= clock k
      /\ (forall j, (i <= j < k)%nat -> clock j < target)
      /\ tr = map (fun j => Sleep (target - clock j)) (seq i (k - i))
              ++ [Log "Target time reached!"])
  /\ (forall i n : nat,
        (i <= n)%nat -> target <= clock n ->
        exists k tr,
          wait_until_datetime clock (S (n - i)) target i = Some (k, tr)
          /\ (k <= n)%nat).
Proof.
  split.
  - intros fuel. apply wait_until_datetime_returned.
  - intros i n. apply wait_until_datetime_returns.
Qed.

Lemma wait_until_datetime_not_early_at_25 :
  wait_until_datetime ticking_clock 10 25 0
  = Some (3%nat, [Sleep 25; Sleep 15; Sleep 5; Log "Target time reached!"])
  /\ 25 <= ticking_clock 3.
Proof.
  split; [reflexivity|].
  exact (proj1 (proj2 (proj1 (wait_until_datetime_not_early ticking_clock 25)
                         10%nat 0%nat 3%nat _ eq_refl))).
Defined.

(** ** Waiting for the opening *)

Lemma reservations_open_31_days_before (d opening_day : date) :
  toordinal opening_day = toordinal d - 31 ->
  reservations_open d = datetime_at opening_day 18 0 0 japan_tz.
Proof.
  intros H. unfold reservations_open, datetime_at. rewrite H.
  unfold days, hours, minutes, seconds, us_per_second. lia.
Qed.

(** Without the flag nothing is logged and the waiter is not called. *)
Lemma wait_handling_without_flag (args : Args) (now : Z) :
  args_wait args = false -> wait_handling args now = ([], None).
Proof. intros H. unfold wait_handling. now rewrite H. Qed.

(** C9, as the script has it.  With the wait flag set, the opening instant
    being 18:00 at UTC+9 on the day 31 days before the requested date, the
    wait is skipped exactly when the current time is no earlier than one
    minute before the opening instant; otherwise the waiter is called with
    the opening instant as its target. *)
Theorem wait_skipped_iff_within_a_minute
  (args : Args) (now : Z) (opening_day : date) :
  args_wait args = true ->
  toordinal opening_day = toordinal (args_date args) - 31 ->
  reservations_open (args_date args)
  = datetime_at opening_day 18 0 0 japan_tz
  /\ (snd (wait_handling args now) = None
      <-> reservations_open (args_date args) - minutes 1 <= now)
  /\ (now < reservations_open (args_date args) - minutes 1 ->
      snd (wait_handling args now)
      = Some (reservations_open (args_date args))).
Proof.
  intros Hwait Hday. split; [now apply reservations_open_31_days_before|].
  unfold wait_handling. rewrite Hwait.
  destruct (Z.ltb_spec now (reservations_open (args_date args) - minutes 1));
    simpl; split.
  - split; [discriminate|lia].
  - reflexivity.
  - split; [lia|reflexivity].
  - lia.
Qed.

Lemma wait_skipped_iff_within_a_minute_in_2026 :
  reservations_open (mk_date 2026 12 25)
  = datetime_at (mk_date 2026 11 24) 18 0 0 japan_tz
  /\ snd (wait_handling args_december_25 half_a_minute_before_opening) = None.
Proof.
  pose proof (wait_skipped_iff_within_a_minute args_december_25
                half_a_minute_before_opening (mk_date 2026 11 24)
                eq_refl eq_refl) as (Hopen & Hskip & _).
  split; [exact Hopen|]. apply Hskip. vm_compute. discriminate.
Defined.

(** C9, as the specification has it, fails: thirty seconds before the
    opening the opening instant is not in the past, yet the wait is
    skipped. *)
Lemma wait_skipped_before_opening :
  args_wait args_december_25 = true
  /\ half_a_minute_before_opening
     < reservations_open (args_date args_december_25)
  /\ snd (wait_handling args_december_25 half_a_minute_before_opening) = None.
Proof. repeat split. Qed.

(** The wait on a clock: started more than a minute early, the script
    sleeps until a reading reaches the opening instant itself. *)
Lemma startup_wait_sleeps_to_opening
  (clock : nat -> Z) (args : Args) (n : nat) :
  args_wait args = true ->
  clock O < reservations_open (args_date args) - minutes 1 ->
  (1 <= n)%nat ->
  reservations_open (args_date args) <= clock n ->
  exists tr, startup_wait clock n args = Some tr.
Proof.
  intros Hwait Hearly Hn Hreach. unfold startup_wait, wait_handling.
  rewrite Hwait.
  destruct (Z.ltb_spec (clock O)
              (reservations_open (args_date args) - minutes 1)); [|lia].
  destruct (wait_until_datetime_returns clock
              (reservations_open (args_date args)) n 1%nat Hn Hreach)
    as (k & tr & Hrun & _).
  replace (S (n - 1)) with n in Hrun by lia. rewrite Hrun. eauto.
Qed.

(** ** The calendar *)

Lemma date_new_day_too_large (y m d : Z) :
  MINYEAR <= y <= MAXYEAR -> 1 <= m <= 12 -> d <= 31 ->
  days_in_month y m < d -> date_new y m d = Raise ValueError.
Proof.
  unfold MINYEAR, MAXYEAR. intros Hy Hm Hd H.
  assert (0 <= days_in_month y m).
  { unfold days_in_month. destruct ((m =? 2) && is_leap y); [lia|].
    assert (Hcases : m = 1 \/ m = 2 \/ m = 3 \/ m = 4 \/ m = 5 \/ m = 6
                     \/ m = 7 \/ m = 8 \/ m = 9 \/ m = 10 \/ m = 11
                     \/ m = 12) by lia.
    repeat (destruct Hcases as [->|Hcases]; [simpl; lia|]).
    subst m. simpl. lia. }
  unfold date_new, fits_c_int, MINYEAR, MAXYEAR.
  replace ((-2147483648 <=? y) && (y <=? 2147483647)) with true
    by (symmetry; apply andb_true_iff; split; apply Z.leb_le; lia).
  replace ((-2147483648 <=? m) && (m <=? 2147483647)) with true
    by (symmetry; apply andb_true_iff; split; apply Z.leb_le; lia).
  replace ((-2147483648 <=? d) && (d <=? 2147483647)) with true
    by (symmetry; apply andb_true_iff; split; apply Z.leb_le; lia).
  replace ((1 <=? y) && (y <=? 9999)) with true
    by (symmetry; apply andb_true_iff; split; apply Z.leb_le; lia).
  replace ((1 <=? m) && (m <=? 12)) with true
    by (symmetry; apply andb_true_iff; split; apply Z.leb_le; lia).
  replace (d <=? days_in_month y m) with false
    by (symmetry; apply Z.leb_gt; lia).
  now rewrite andb_false_r.
Qed.

(** C10.  When a tick reaches the calendar, the header reads a year and a
    month of the calendar of which one differs from the requested date's,
    and the requested day of the month (at most 31) is past the end of the
    displayed month, building
    [date(selected_year, selected_month, args.date.day)] raises
    [ValueError]: the tick presses no pager and logs nothing, and the loop
    ends with the exception uncaught. *)
Theorem calendar_mismatch_invalid_day_raises
  (nd_value : Z -> option Z) (args : Args) (s : Snapshot)
  (header_text ys ms : str) (rest : list str) (y m : Z) :
  reaches_calendar args s ->
  calendar_header s = Some header_text ->
  re_split_non_digits header_text = ys :: ms :: rest ->
  py_int ys = Ok y ->
  py_int ms = Ok m ->
  MINYEAR <= y <= MAXYEAR ->
  1 <= m <= 12 ->
  y <> year (args_date args) \/ m <> month (args_date args) ->
  days_in_month y m < day (args_date args) <= 31 ->
  date_new y m (day (args_date args)) = Raise ValueError
  /\ tick nd_value args s = out CalendarMonthMismatch [] (Raised ValueError)
  /\ forall (fuel i : nat),
       main_loop nd_value args (S fuel) (fun _ => s) i
       = Some (Uncaught ValueError, []).
Proof.
  intros Hreach Hheader Hsplit Hy Hm Hyear Hmonth Hdiff [Hday Hday31].
  pose proof (date_new_day_too_large y m _ Hyear Hmonth Hday31 Hday) as Hdate.
  assert (Htick : tick nd_value args s
                  = out CalendarMonthMismatch [] (Raised ValueError)).
  { rewrite (tick_reaches_calendar nd_value args s Hreach), Hheader.
    unfold calendar_block. rewrite Hsplit, Hy, Hm.
    assert (Hguard : negb (y =? year (args_date args))
                     || negb (m =? month (args_date args)) = true).
    { destruct (Z.eqb_spec y (year (args_date args)));
        destruct (Z.eqb_spec m (month (args_date args)));
        simpl; auto; lia. }
    rewrite Hguard. unfold month_pager_block. rewrite Hdate. reflexivity. }
  repeat split; auto.
  intros fuel i.
  rewrite (main_loop_raised nd_value args fuel _ i ValueError);
    now rewrite Htick.
Qed.

Lemma calendar_mismatch_invalid_day_raises_in_february :
  tick ascii_only args_march_31 page_february
  = out CalendarMonthMismatch [] (Raised ValueError)
  /\ main_loop ascii_only args_march_31 1 (fun _ => page_february) 0
     = Some (Uncaught ValueError, []).
Proof.
  assert (Hreach : reaches_calendar args_march_31 page_february)
    by (repeat split; reflexivity).
  assert (Hheader : calendar_header page_february = Some header_february_2026)
    by reflexivity.
  assert (Hsplit : re_split_non_digits header_february_2026
                   = lit "2026" :: lit "2" :: [[]])
    by reflexivity.
  assert (Hy : py_int (lit "2026") = Ok 2026) by reflexivity.
  assert (Hm : py_int (lit "2") = Ok 2) by reflexivity.
  assert (Hdiff : 2026 <> year (args_date args_march_31)
                  \/ 2 <> month (args_date args_march_31))
    by (right; simpl; lia).
  assert (Hyear : MINYEAR <= 2026 <= MAXYEAR) by (unfold MINYEAR, MAXYEAR; lia).
  assert (Hmonth : 1 <= 2 <= 12) by lia.
  assert (Hday : days_in_month 2026 2 < day (args_date args_march_31) <= 31)
    by (split; [reflexivity|simpl; lia]).
  destruct (calendar_mismatch_invalid_day_raises ascii_only args_march_31
              page_february header_february_2026 (lit "2026") (lit "2") [[]]
              2026 2 Hreach Hheader Hsplit Hy Hm Hyear Hmonth Hdiff Hday)
    as (_ & Htick & Hloop).
  split; [exact Htick|exact (Hloop O O)].
Defined.

(** * Further properties of the script *)

(** ** More on [select_best_time] *)

Lemma first_in_range_member (lo hi : time) (S : list time) (t : time) :
  first_in_range lo hi S = Ok (Some t) -> In t S.
Proof.
  intros H. pose proof (first_in_range_spec lo hi S) as Hs. rewrite H in Hs.
  destruct Hs as (pre & post & -> & _). apply in_or_app. right. now left.
Qed.

Lemma latest_from_sound (lo : time) (S : list time) :
  forall acc,
    (forall l, acc = Some l -> time_le lo l = Ok true) ->
    match latest_from lo S acc with
    | Ok (Some t) => (In t S \/ acc = Some t) /\ time_le lo t = Ok true
    | Ok None => acc = None /\ forall s, In s S -> time_le lo s <> Ok true
    | Raise e => e = TypeError
    end.
Proof.
  induction S as [|x S IH]; intros acc Hacc; cbn [latest_from].
  - destruct acc as [l|]; [split; auto|split; auto; intros s []].
  - rewrite (time_ge_le x lo).
    destruct (time_le lo x) as [above|e] eqn:Habove; cbn [bind].
    2:{ now apply (ordering_raises _ _ _ _ Habove). }
    assert (Hnext :
              forall next,
                (forall l, next = Some l -> time_le lo l = Ok true) ->
                (forall t, next = Some t -> x = t \/ acc = Some t) ->
                (next = None -> acc = None /\ above = false) ->
                match latest_from lo S next with
                | Ok (Some t) =>
                    (In t (x :: S) \/ acc = Some t) /\ time_le lo t = Ok true
                | Ok None =>
                    acc = None
                    /\ forall s, In s (x :: S) -> time_le lo s <> Ok true
                | Raise e => e = TypeError
                end).
    { intros next Hle Hfrom Hnone. specialize (IH next Hle).
      destruct (latest_from lo S next) as [[t|]|e]; auto.
      - destruct IH as [[Hin|Heq] Ht]; split; auto.
        + left. now right.
        + destruct (Hfrom t Heq) as [<-|Hold]; [left; now left|now right].
      - destruct IH as [Heq Hall]. destruct (Hnone Heq) as [Hacc0 Hfalse].
        split; auto. intros s [<-|Hs]; [congruence|now apply Hall]. }
    destruct above.
    + destruct acc as [l|].
      * destruct (time_gt x l) as [later|e] eqn:Hlater; cbn [bind].
        2:{ now apply (ordering_raises _ _ _ _ Hlater). }
        destruct later; apply Hnext; try discriminate.
        -- intros ? H. now injection H as <-.
        -- intros ? H. injection H as <-. now left.
        -- exact Hacc.
        -- intros ? H. now right.
      * cbn [bind]. apply Hnext; try discriminate.
        -- intros ? H. now injection H as <-.
        -- intros ? H. injection H as <-. now left.
    + cbn [bind]. apply Hnext; auto.
Qed.

Lemma earliest_upto_sound (hi : time) (S : list time) :
  forall acc,
    (forall e, acc = Some e -> time_le e hi = Ok true) ->
    match earliest_upto hi S acc with
    | Ok (Some t) => (In t S \/ acc = Some t) /\ time_le t hi = Ok true
    | Ok None => acc = None /\ forall s, In s S -> time_le s hi <> Ok true
    | Raise e => e = TypeError
    end.
Proof.
  induction S as [|x S IH]; intros acc Hacc; cbn [earliest_upto].
  - destruct acc as [l|]; [split; auto|split; auto; intros s []].
  - destruct (time_le x hi) as [below|e] eqn:Hbelow; cbn [bind].
    2:{ now apply (ordering_raises _ _ _ _ Hbelow). }
    assert (Hnext :
              forall next,
                (forall l, next = Some l -> time_le l hi = Ok true) ->
                (forall t, next = Some t -> x = t \/ acc = Some t) ->
                (next = None -> acc = None /\ below = false) ->
                match earliest_upto hi S next with
                | Ok (Some t) =>
                    (In t (x :: S) \/ acc = Some t) /\ time_le t hi = Ok true
                | Ok None =>
                    acc = None
                    /\ forall s, In s (x :: S) -> time_le s hi <> Ok true
                | Raise e => e = TypeError
                end).
    { intros next Hle Hfrom Hnone. specialize (IH next Hle).
      destruct (earliest_upto hi S next) as [[t|]|e]; auto.
      - destruct IH as [[Hin|Heq] Ht]; split; auto.
        + left. now right.
        + destruct (Hfrom t Heq) as [<-|Hold]; [left; now left|now right].
      - destruct IH as [Heq Hall]. destruct (Hnone Heq) as [Hacc0 Hfalse].
        split; auto. intros s [<-|Hs]; [congruence|now apply Hall]. }
    destruct below.
    + destruct acc as [l|].
      * destruct (time_lt x l) as [earlier|e] eqn:Hearlier; cbn [bind].
        2:{ now apply (ordering_raises _ _ _ _ Hearlier). }
        destruct earlier; apply Hnext; try discriminate.
        -- intros ? H. now injection H as <-.
        -- intros ? H. injection H as <-. now left.
        -- exact Hacc.
        -- intros ? H. now right.
      * cbn [bind]. apply Hnext; try discriminate.
        -- intros ? H. now injection H as <-.
        -- intros ? H. injection H as <-. now left.
    + cbn [bind]. apply Hnext; auto.
Qed.

Lemma select_best_time_outcome
  (S : list time) (min_time max_time : option time) :
  match select_best_time S min_time max_time with
  | Ok (Some t) => In t S /\ meets min_time max_time t
  | Ok None => forall s, In s S -> ~ meets min_time max_time s
  | Raise e => e = TypeError
  end.
Proof.
  destruct min_time as [lo|], max_time as [hi|].
  - rewrite select_best_time_first.
    pose proof (first_in_range_spec lo hi S) as H.
    destruct (first_in_range lo hi S) as [[t|]|e] eqn:Hrun; auto.
    split; [now apply (first_in_range_member lo hi)|].
    destruct H as (_ & _ & _ & Ht & _). exact Ht.
  - destruct S as [|x S]; [intros s []|].
    change (select_best_time (x :: S) (Some lo) None)
      with (latest_from lo (x :: S) None).
    pose proof (latest_from_sound lo (x :: S) None) as H.
    destruct (latest_from lo (x :: S) None) as [[t|]|e];
      try (apply H; discriminate).
    + destruct H as [[Hin|Hno] Ht]; try discriminate.
      split; [exact Hin|split; [exact Ht|exact I]].
    + destruct H as [_ Hall]; [discriminate|].
      intros s Hs [Hls _]. now apply (Hall s Hs).
  - destruct S as [|x S]; [intros s []|].
    change (select_best_time (x :: S) None (Some hi))
      with (earliest_upto hi (x :: S) None).
    pose proof (earliest_upto_sound hi (x :: S) None) as H.
    destruct (earliest_upto hi (x :: S) None) as [[t|]|e];
      try (apply H; discriminate).
    + destruct H as [[Hin|Hno] Ht]; try discriminate.
      split; [exact Hin|split; [exact I|exact Ht]].
    + destruct H as [_ Hall]; [discriminate|].
      intros s Hs [_ Hsh]. now apply (Hall s Hs).
  - destruct S as [|x S]; simpl.
    + intros s [].
    + split; [now left|split; exact I].
Qed.

(** X1.  Whatever bounds are set, a slot that [select_best_time] returns is
    one of the slots given and meets every bound that is set; and it returns
    [None] only when no slot given meets them.  When it raises, it raises
    [TypeError]. *)
Theorem select_best_time_sound
  (S : list time) (min_time max_time : option time) :
  match select_best_time S min_time max_time with
  | Ok (Some t) => In t S /\ meets min_time max_time t
  | Ok None => forall s, In s S -> ~ meets min_time max_time s
  | Raise e => e = TypeError
  end.
Proof. apply select_best_time_outcome. Qed.

Lemma ascending_split (pre post : list time) (t : time) :
  ascending (pre ++ t :: post) ->
  forall s, In s post -> time_le t s = Ok true.
Proof.
  unfold ascending. induction pre as [|x pre IH]; simpl; intros H s Hs.
  - inversion H as [|? ? _ Hall]; subst.
    rewrite Forall_forall in Hall. now apply Hall.
  - inversion H; subst. now apply IH.
Qed.

(** X2.  With both bounds set and the slots listed in ascending order, the
    slot returned is the earliest of the slots within the bounds. *)
Theorem select_best_time_both_bounds_ascending
  (S : list time) (lo hi t : time) :
  ascending S ->
  select_best_time S (Some lo) (Some hi) = Ok (Some t) ->
  forall s, In s S -> time_le lo s = Ok true -> time_le s hi = Ok true ->
            time_le t s = Ok true.
Proof.
  intros Hsorted Hsel s Hs Hlo Hhi. rewrite select_best_time_first in Hsel.
  pose proof (first_in_range_spec lo hi S) as H. rewrite Hsel in H.
  destruct H as (pre & post & -> & _ & Hpre).
  apply in_app_or in Hs. destruct Hs as [Hs|[<-|Hs]].
  - exfalso. apply (Hpre s Hs). now split.
  - apply time_le_refl.
  - now apply (ascending_split pre post t).
Qed.

Lemma select_best_time_both_bounds_ascending_scenario_C :
  time_le (hm 10 0) (hm 11 0) = Ok true.
Proof.
  apply (select_best_time_both_bounds_ascending scenario_C
           (hm 9 30) (hm 11 30) (hm 10 0)).
  - repeat constructor.
  - reflexivity.
  - simpl. tauto.
  - reflexivity.
  - reflexivity.
Defined.

(** Out of ascending order the both-bounds branch can return a later slot
    than the earliest in range. *)
Example select_best_time_both_bounds_listed_order :
  select_best_time [hm 10 0; hm 9 45] (Some (hm 9 30)) (Some (hm 10 30))
  = Ok (Some (hm 10 0)).
Proof. reflexivity. Qed.

Lemma latest_of_unique (lo : time) (S : list time) (r r' : option time) :
  Forall naive S -> latest_of lo S r -> latest_of lo S r' -> r = r'.
Proof.
  intros HS. rewrite Forall_forall in HS.
  destruct r as [t|], r' as [t'|]; simpl.
  - intros (Hin & Hlo & Hmax) (Hin' & Hlo' & Hmax'). f_equal.
    apply lex_le_antisym; auto.
  - intros (Hin & Hlo & _) H. now apply H in Hin.
  - intros H (Hin & Hlo & _). now apply H in Hin.
  - reflexivity.
Qed.

Lemma earliest_of_unique (hi : time) (S : list time) (r r' : option time) :
  Forall naive S -> earliest_of hi S r -> earliest_of hi S r' -> r = r'.
Proof.
  intros HS. rewrite Forall_forall in HS.
  destruct r as [t|], r' as [t'|]; simpl.
  - intros (Hin & Hhi & Hmin) (Hin' & Hhi' & Hmin'). f_equal.
    apply lex_le_antisym; auto.
  - intros (Hin & Hhi & _) H. now apply H in Hin.
  - intros H (Hin & Hhi & _). now apply H in Hin.
  - reflexivity.
Qed.

Lemma latest_of_perm (lo : time) (S S' : list time) (r : option time) :
  Permutation S S' -> latest_of lo S r -> latest_of lo S' r.
Proof.
  intros HP. destruct r as [t|]; simpl.
  - intros (Hin & Hlo & Hmax). repeat split; auto.
    + now apply (Permutation_in _ HP).
    + intros s Hs. apply Hmax. now apply (Permutation_in _ (Permutation_sym HP)).
  - intros H s Hs. apply H.
    now apply (Permutation_in _ (Permutation_sym HP)).
Qed.

Lemma earliest_of_perm (hi : time) (S S' : list time) (r : option time) :
  Permutation S S' -> earliest_of hi S r -> earliest_of hi S' r.
Proof.
  intros HP. destruct r as [t|]; simpl.
  - intros (Hin & Hhi & Hmin). repeat split; auto.
    + now apply (Permutation_in _ HP).
    + intros s Hs. apply Hmin. now apply (Permutation_in _ (Permutation_sym HP)).
  - intros H s Hs. apply H.
    now apply (Permutation_in _ (Permutation_sym HP)).
Qed.

(** X3.  With a single bound set the selection does not depend on the
    order in which the slots, which carry no UTC offset, are listed: two
    lists with the same slots give the same result. *)
Theorem select_best_time_single_bound_any_order
  (S S' : list time) (b : time) :
  Forall naive S ->
  Permutation S S' ->
  select_best_time S (Some b) None = select_best_time S' (Some b) None
  /\ select_best_time S None (Some b) = select_best_time S' None (Some b).
Proof.
  intros HS HP.
  assert (HS' : Forall naive S').
  { rewrite Forall_forall in *. intros s Hs. apply HS.
    now apply (Permutation_in _ (Permutation_sym HP)). }
  destruct (utcoffset b) as [o|] eqn:Hb.
  - assert (Haware : ~ naive b) by (unfold naive; congruence).
    destruct S as [|x S].
    + apply Permutation_nil in HP. now subst S'.
    + destruct S' as [|x' S'];
        [apply Permutation_sym, Permutation_nil in HP; discriminate|].
      inversion HS; inversion HS'; subst.
      rewrite !select_best_time_aware_bound; eauto.
  - split.
    + destruct (select_best_time_latest S b HS Hb) as (r & -> & Hr).
      destruct (select_best_time_latest S' b HS' Hb) as (r' & -> & Hr').
      f_equal. apply (latest_of_unique b S'); auto.
      now apply (latest_of_perm b S).
    + destruct (select_best_time_earliest S b HS Hb) as (r & -> & Hr).
      destruct (select_best_time_earliest S' b HS' Hb) as (r' & -> & Hr').
      f_equal. apply (earliest_of_unique b S'); auto.
      now apply (earliest_of_perm b S).
Qed.

Lemma select_best_time_single_bound_any_order_swapped :
  select_best_time [hm 10 0; hm 9 45] (Some (hm 9 30)) None
  = select_best_time [hm 9 45; hm 10 0] (Some (hm 9 30)) None
  /\ select_best_time [hm 10 0; hm 9 45] None (Some (hm 9 30))
     = select_best_time [hm 9 45; hm 10 0] None (Some (hm 9 30)).
Proof.
  apply (select_best_time_single_bound_any_order
           [hm 10 0; hm 9 45] [hm 9 45; hm 10 0] (hm 9 30)).
  - repeat constructor.
  - apply perm_swap.
Defined.

(** Slots that carry different UTC offsets can compare equal without being
    the same, and of two such slots the one listed first is kept. *)
Example select_best_time_single_bound_listed_order :
  select_best_time [hm_jst 10 0; mk_time 1 0 0 0 (Some 0)]
    (Some (mk_time 0 0 0 0 (Some 0))) None
  = Ok (Some (hm_jst 10 0))
  /\ select_best_time [mk_time 1 0 0 0 (Some 0); hm_jst 10 0]
       (Some (mk_time 0 0 0 0 (Some 0))) None
     = Ok (Some (mk_time 1 0 0 0 (Some 0))).
Proof. split; reflexivity. Qed.

(** X4.  With the upper bound earlier than the lower one, which the
    function itself does not refuse, nothing is ever selected from slots
    that, like the bounds, carry no UTC offset. *)
Theorem select_best_time_inverted_bounds (S : list time) (lo hi : time) :
  Forall naive S -> naive lo -> naive hi ->
  time_lt hi lo = Ok true ->
  select_best_time S (Some lo) (Some hi) = Ok None.
Proof.
  intros HS Hlo Hhi Hinv.
  unfold time_lt in Hinv. rewrite (ordering_naive _ hi lo Hhi Hlo) in Hinv.
  injection Hinv as Hinv. apply is_lt_iff in Hinv.
  rewrite select_best_time_first.
  pose proof (first_in_range_spec lo hi S) as H.
  destruct (first_in_range_naive lo hi S HS Hlo Hhi) as (r & Hr).
  rewrite Hr in *. destruct r as [t|]; [|reflexivity].
  pose proof (first_in_range_member lo hi S t Hr) as Hin.
  rewrite Forall_forall in HS. pose proof (HS t Hin) as Ht.
  destruct H as (_ & _ & _ & [Hl Hh] & _). exfalso. apply Hinv.
  apply time_le_iff in Hl, Hh; auto. eapply lex_le_trans; eauto.
Qed.

Lemma select_best_time_inverted_bounds_scenario_C :
  select_best_time scenario_C (Some (hm 10 30)) (Some (hm 9 30)) = Ok None.
Proof.
  apply (select_best_time_inverted_bounds scenario_C (hm 10 30) (hm 9 30)).
  - repeat constructor.
  - reflexivity.
  - reflexivity.
  - reflexivity.
Defined.

(** Inverted bounds that carry a UTC offset raise like any others. *)
Example select_best_time_inverted_bounds_aware :
  select_best_time scenario_C (Some (hm_jst 10 30)) (Some (hm_jst 9 30))
  = Raise TypeError.
Proof. reflexivity. Qed.

(** ** More on the slot extraction *)

Section MoreExtractionFacts.

Variable nd_value : Z -> option Z.

Lemma match_here_some (s : str) (c1 c2 c4 c5 : Z) :
  match_here nd_value s = Some (c1, c2, c4, c5) ->
  exists post,
    s = [c1; c2; 58; c4; c5] ++ post
    /\ re_d nd_value c1 = true /\ re_d nd_value c2 = true
    /\ re_d nd_value c4 = true /\ re_d nd_value c5 = true.
Proof.
  unfold match_here.
  destruct s as [|a1 [|a2 [|a3 [|a4 [|a5 post]]]]]; try discriminate.
  destruct (re_d nd_value a1 && re_d nd_value a2 && (a3 =? 58)
            && re_d nd_value a4 && re_d nd_value a5) eqn:E; [|discriminate].
  intros H. injection H as <- <- <- <-.
  repeat (apply andb_true_iff in E; destruct E as [E ?]).
  apply Z.eqb_eq in H1. subst a3. exists post. auto.
Qed.

Lemma re_search_found (s : str) :
  match re_search nd_value s with
  | Some m =>
      exists pre rest,
        s = pre ++ rest
        /\ match_here nd_value rest = Some m
        /\ forall p q, s = p ++ q -> (List.length p < List.length pre)%nat ->
                       match_here nd_value q = None
  | None => forall p q, s = p ++ q -> match_here nd_value q = None
  end.
Proof.
  induction s as [|c s IH].
  - simpl. intros p q H. symmetry in H. apply app_eq_nil in H.
    destruct H as [_ ->]. reflexivity.
  - cbn [re_search]. destruct (match_here nd_value (c :: s)) as [m|] eqn:Hhere.
    + exists [], (c :: s). repeat split; auto. simpl. intros p q _ Hp. lia.
    + destruct (re_search nd_value s) as [m|].
      * destruct IH as (pre & rest & -> & Hm & Hear).
        exists (c :: pre), rest. repeat split; auto.
        intros p q Hpq Hlen. destruct p as [|c' p]; simpl in Hpq.
        -- now subst q.
        -- injection Hpq as <- Hpq. apply (Hear p q Hpq). simpl in Hlen. lia.
      * intros p q Hpq. destruct p as [|c' p]; simpl in Hpq.
        -- now subst q.
        -- injection Hpq as <- Hpq. now apply (IH p q).
Qed.

(** X5.  The search returns the leftmost place of the text where two
    digits, a colon and two digits stand: the text splits there, and at no
    place before it does such a group start; it returns [None] only when
    there is no such place at all. *)
Theorem re_search_leftmost (s : str) :
  match re_search nd_value s with
  | Some (c1, c2, c4, c5) =>
      exists pre post,
        s = pre ++ [c1; c2; 58; c4; c5] ++ post
        /\ (re_d nd_value c1 = true /\ re_d nd_value c2 = true
            /\ re_d nd_value c4 = true /\ re_d nd_value c5 = true)
        /\ forall p q, s = p ++ q -> (List.length p < List.length pre)%nat ->
                       match_here nd_value q = None
  | None => forall p q, s = p ++ q -> match_here nd_value q = None
  end.
Proof.
  pose proof (re_search_found s) as H.
  destruct (re_search nd_value s) as [[[[c1 c2] c4] c5]|]; [|exact H].
  destruct H as (pre & rest & -> & Hm & Hear).
  destruct (match_here_some _ _ _ _ _ Hm) as (post & -> & Hd).
  exists pre, post. auto.
Qed.

Lemma digit_value_decimal (c v : Z) :
  decimal_values nd_value -> digit_value nd_value c = Some v -> 0 <= v <= 9.
Proof.
  intros Hnd. unfold digit_value, ascii_digit.
  destruct (Z.leb_spec 48 c), (Z.leb_spec c 57); simpl;
    try (intros E; injection E as <-; lia);
    destruct (c <? 128); try discriminate; intros E; exact (Hnd _ _ E).
Qed.

Lemma strptime_HM_time_of_day (m : hhmm_match) (t : time) :
  decimal_values nd_value -> strptime_HM nd_value m = Ok t -> time_of_day t.
Proof.
  intros Hnd. destruct m as [[[c1 c2] c4] c5]. unfold strptime_HM.
  destruct (digit_value nd_value c1) as [v1|] eqn:E1; [|discriminate].
  destruct (digit_value nd_value c2) as [v2|] eqn:E2; [|discriminate].
  destruct (digit_value nd_value c4) as [v4|] eqn:E4; [|discriminate].
  destruct (digit_value nd_value c5) as [v5|] eqn:E5; [|discriminate].
  destruct ((((c1 =? 50) && between 48 51 c2) || between 48 49 c1)
            && between 48 53 c4) eqn:E; [|discriminate].
  intros H.
  assert (Ht : t = hm (10 * v1 + v2) (10 * v4 + v5)) by congruence.
  clear H. apply andb_true_iff in E. destruct E as [EH EM].
  pose proof (digit_value_decimal _ _ Hnd E2) as R2.
  pose proof (digit_value_decimal _ _ Hnd E5) as R5.
  assert (R4 : 0 <= v4 <= 5).
  { unfold between in EM. apply andb_true_iff in EM. destruct EM as [L U].
    apply Z.leb_le in L, U. unfold digit_value, ascii_digit in E4.
    destruct (Z.leb_spec 48 c4), (Z.leb_spec c4 57); simpl in E4; try lia.
    injection E4 as <-. lia. }
  assert (RH : 0 <= 10 * v1 + v2 <= 23).
  { apply orb_true_iff in EH. destruct EH as [EH|EH].
    - apply andb_true_iff in EH. destruct EH as [E50 EB].
      apply Z.eqb_eq in E50. subst c1. cbv in E1. injection E1 as <-.
      unfold between in EB. apply andb_true_iff in EB. destruct EB as [L U].
      apply Z.leb_le in L, U. unfold digit_value, ascii_digit in E2.
      destruct (Z.leb_spec 48 c2), (Z.leb_spec c2 57); simpl in E2; try lia.
      injection E2 as <-. lia.
    - unfold between in EH. apply andb_true_iff in EH. destruct EH as [L U].
      apply Z.leb_le in L, U. unfold digit_value, ascii_digit in E1.
      destruct (Z.leb_spec 48 c1), (Z.leb_spec c1 57); simpl in E1; try lia.
      injection E1 as <-. lia. }
  subst t. unfold time_of_day, hm. cbn [hour minute second microsecond]. lia.
Qed.

Lemma strptime_HM_naive (m : hhmm_match) (t : time) :
  strptime_HM nd_value m = Ok t -> naive t.
Proof.
  destruct m as [[[c1 c2] c4] c5]. unfold strptime_HM.
  destruct (digit_value nd_value c1), (digit_value nd_value c2),
    (digit_value nd_value c4), (digit_value nd_value c5); try discriminate.
  destruct ((((c1 =? 50) && between 48 51 c2) || between 48 49 c1)
            && between 48 53 c4); [|discriminate].
  intros H. injection H as <-. reflexivity.
Qed.

Lemma extract_times_parses (texts : list str) :
  forall acc times : list time,
    extract_times nd_value texts acc = Ok times ->
    exists ts, times = acc ++ ts /\ Forall2 (parses nd_value) texts ts.
Proof.
  induction texts as [|text texts IH]; intros acc times H; simpl in H.
  - injection H as <-. exists []. split; [now rewrite app_nil_r|constructor].
  - destruct (re_search nd_value text) as [m|] eqn:Hm; [|discriminate].
    simpl in H. destruct (strptime_HM nd_value m) as [t|e] eqn:Ht;
      [|discriminate].
    simpl in H. destruct (IH _ _ H) as (ts & -> & Hall).
    exists (t :: ts). split; [now rewrite <- app_assoc|].
    constructor; [|exact Hall]. now exists m.
Qed.

Lemma strptime_HM_raises (m : hhmm_match) (e : exc) :
  strptime_HM nd_value m = Raise e -> e = ValueError.
Proof.
  destruct m as [[[c1 c2] c4] c5]. unfold strptime_HM.
  destruct (digit_value nd_value c1), (digit_value nd_value c2),
    (digit_value nd_value c4), (digit_value nd_value c5);
    try (intros H; now injection H).
  destruct ((((c1 =? 50) && between 48 51 c2) || between 48 49 c1)
            && between 48 53 c4); [discriminate|].
  intros H. now injection H.
Qed.

Lemma extract_times_raises (texts : list str) :
  forall (acc : list time) (e : exc),
    extract_times nd_value texts acc = Raise e ->
    e = TypeError \/ e = ValueError.
Proof.
  induction texts as [|text texts IH]; intros acc e H; simpl in H.
  - discriminate.
  - destruct (re_search nd_value text) as [m|]; [|left; now injection H].
    simpl in H. destruct (strptime_HM nd_value m) as [t|e'] eqn:Ht.
    + simpl in H. now apply IH in H.
    + simpl in H. injection H as <-. right.
      now apply (strptime_HM_raises m).
Qed.

(** The times extracted carry no UTC offset. *)
Lemma extract_times_naive (texts : list str) (times : list time) :
  extract_times nd_value texts [] = Ok times -> Forall naive times.
Proof.
  intros H. destruct (extract_times_parses _ _ _ H) as (ts & -> & Hall).
  simpl. clear H. induction Hall as [|text t texts' ts' (m & _ & Ht) _ IH];
    constructor; auto.
  now apply (strptime_HM_naive m).
Qed.

(** X6.  When the extraction returns, it returns one time for each link, in
    the order of the links, each the time parsed from the first match of its
    link's text; and it returns exactly when every text has a first match
    that parses.  No link is ever dropped. *)
Theorem extract_times_one_per_link (texts : list str) (times : list time) :
  (extract_times nd_value texts [] = Ok times
   <-> Forall2 (parses nd_value) texts times)
  /\ (extract_times nd_value texts [] = Ok times ->
      List.length times = List.length texts).
Proof.
  assert (Hiff : extract_times nd_value texts [] = Ok times
                 <-> Forall2 (parses nd_value) texts times).
  { split.
    - intros H. destruct (extract_times_parses _ _ _ H) as (ts & -> & Hall).
      exact Hall.
    - intros H. apply (extract_times_all_parse nd_value texts times []).
      exact H. }
  split; [exact Hiff|].
  intros H. apply Hiff in H. symmetry. now apply (Forall2_length H).
Qed.

(** X7.  Every time the extraction returns is a time of day to the minute:
    hour 0 to 23, minute 0 to 59, no seconds. *)
Theorem extract_times_times_of_day (texts : list str) (times : list time) :
  decimal_values nd_value ->
  extract_times nd_value texts [] = Ok times ->
  Forall time_of_day times.
Proof.
  intros Hnd H. destruct (extract_times_parses _ _ _ H) as (ts & -> & Hall).
  simpl. clear H. induction Hall as [|text t texts' ts' (m & _ & Ht) _ IH];
    constructor; auto.
  now apply (strptime_HM_time_of_day m).
Qed.

End MoreExtractionFacts.

Lemma extract_times_one_per_link_two_links :
  List.length [hm 10 25; hm 10 40]
  = List.length [slot_text 66 "10:25"; slot_text 67 "10:40"].
Proof.
  apply (proj2 (extract_times_one_per_link ascii_only
                  [slot_text 66 "10:25"; slot_text 67 "10:40"]
                  [hm 10 25; hm 10 40])).
  reflexivity.
Defined.

Lemma extract_times_times_of_day_two_links :
  Forall time_of_day [hm 10 25; hm 10 40].
Proof.
  apply (extract_times_times_of_day ascii_only
           [slot_text 66 "10:25"; slot_text 67 "10:40"]).
  - intros c v H. discriminate H.
  - reflexivity.
Defined.


(** ** What a tick does to the page *)

Lemma index_of_member (x : time) (l : list time) :
  Forall naive l ->
  In x l ->
  exists idx,
    index_of x l = Some idx
    /\ nth_error l idx = Some x
    /\ forall j, (j < idx)%nat -> nth_error l j <> Some x.
Proof.
  intros Hl Hin. assert (Hx : naive x).
  { rewrite Forall_forall in Hl. now apply Hl. }
  induction l as [|y l IH]; [destruct Hin|].
  inversion Hl as [|? ? Hy Hl']; subst.
  cbn [index_of]. destruct (time_eq y x) eqn:E.
  - apply (time_eq_naive y x Hy Hx) in E. subst y. exists O.
    repeat split. intros j Hj. lia.
  - assert (Hne : y <> x).
    { intros ->. rewrite time_eq_refl in E. discriminate. }
    destruct Hin as [Heq|Hin]; [contradiction|].
    destruct (IH Hl' Hin) as (idx & -> & Hnth & Hfirst).
    exists (S idx). repeat split; auto.
    intros [|j] Hj; simpl; [congruence|]. apply Hfirst. lia.
Qed.

Lemma select_best_time_member
  (S : list time) (min_time max_time : option time) (t : time) :
  select_best_time S min_time max_time = Ok (Some t) -> In t S.
Proof.
  intros H. pose proof (select_best_time_outcome S min_time max_time) as Hs.
  rewrite H in Hs. apply Hs.
Qed.

Lemma Forall2_nth_error_right {A B : Type} (P : A -> B -> Prop)
  (l : list A) (l' : list B) :
  Forall2 P l l' ->
  forall i b, nth_error l' i = Some b ->
              exists a, nth_error l i = Some a /\ P a b.
Proof.
  induction 1 as [|a b l l' Hab _ IH]; intros i b' Hi.
  - destruct i; discriminate.
  - destruct i as [|i]; simpl in *.
    + injection Hi as <-. eauto.
    + now apply IH.
Qed.

Section TickFacts.

Variable nd_value : Z -> option Z.
Variable args : Args.

(** The time-table branch once the extraction has returned and a slot is
    selected. *)
Lemma time_table_block_selected (s : Snapshot) (times : list time)
  (best : time) :
  extract_times nd_value (time_slot_elements s) [] = Ok times ->
  select_best_time times (args_minTime args) (args_maxTime args)
  = Ok (Some best) ->
  exists idx,
    time_table_block nd_value args s
    = out TimeSlotListPresent
        [LogFound (time_slot_elements s); LogExtracted times;
         LogSelecting best; Click (TimeSlotLink idx)]
        Continue
    /\ nth_error times idx = Some best
    /\ (forall j, (j < idx)%nat -> nth_error times j <> Some best)
    /\ (idx < List.length (time_slot_elements s))%nat.
Proof.
  intros Hex Hsel.
  pose proof (select_best_time_member _ _ _ _ Hsel) as Hin.
  pose proof (extract_times_naive nd_value _ _ Hex) as Hnaive.
  destruct (index_of_member best times Hnaive Hin)
    as (idx & Hidx & Hnth & Hfirst).
  assert (Hlen : List.length times = List.length (time_slot_elements s)).
  { apply (extract_times_length nd_value) in Hex. simpl in Hex. exact Hex. }
  assert (Hlt : (idx < List.length (time_slot_elements s))%nat).
  { rewrite <- Hlen. apply nth_error_Some. congruence. }
  exists idx. repeat split; auto.
  unfold time_table_block.
  destruct (time_slot_elements s) as [|text texts] eqn:Htexts.
  - simpl in Hlt. lia.
  - rewrite Hex, Hsel, Hidx.
    apply Nat.ltb_lt in Hlt. now rewrite Hlt.
Qed.

(** X8.  On a page with a time table, once the extraction has returned and
    a slot is selected, the tick clicks one link and goes on: the first link
    of the list whose text parses to the selected time.  The lookup of the
    selected time in the extracted list and the indexing of the links never
    fail. *)
Theorem time_table_click_is_selected_slot (s : Snapshot)
  (times : list time) (best : time) :
  extract_times nd_value (time_slot_elements s) [] = Ok times ->
  select_best_time times (args_minTime args) (args_maxTime args)
  = Ok (Some best) ->
  exists idx text,
    time_table_block nd_value args s
    = out TimeSlotListPresent
        [LogFound (time_slot_elements s); LogExtracted times;
         LogSelecting best; Click (TimeSlotLink idx)]
        Continue
    /\ nth_error (time_slot_elements s) idx = Some text
    /\ parses nd_value text best
    /\ forall j, (j < idx)%nat -> nth_error times j <> Some best.
Proof.
  intros Hex Hsel.
  destruct (time_table_block_selected s times best Hex Hsel)
    as (idx & Hblock & Hnth & Hfirst & _).
  destruct (extract_times_parses nd_value _ _ _ Hex) as (ts & Hts & Hall).
  simpl in Hts. subst ts.
  destruct (Forall2_nth_error_right _ _ _ Hall idx best Hnth)
    as (text & Htext & Hparse).
  exists idx, text. auto.
Qed.

(** The tick on a snapshot that reaches the time table. *)
Lemma tick_reaches_time_table (s : Snapshot) :
  reaches_time_table s ->
  tick nd_value args s = time_table_block nd_value args s.
Proof.
  intros (Ht & Hp & Hc & Hterms & Hemail & Hcong & Htab & Htt).
  unfold tick, table_block.
  rewrite Ht, Hp, Hc, Hterms, Hemail, Hcong, Htab, Htt.
  reflexivity.
Qed.

(** X9.  A bound given with a UTC offset stops the script at the first
    time table that lists a slot.  The times extracted carry no offset, so
    the first comparison of [select_best_time] with a lower bound that
    carries one, or with such an upper bound when no lower bound is set,
    raises [TypeError]: the tick has logged the links found and the times
    extracted and sent no command, and the loop, which has no clause for
    [TypeError], ends there. *)
Theorem aware_bound_raises_on_time_table (s : Snapshot)
  (times : list time) :
  reaches_time_table s ->
  time_slot_elements s <> [] ->
  extract_times nd_value (time_slot_elements s) [] = Ok times ->
  (exists lo, args_minTime args = Some lo /\ ~ naive lo)
  \/ (args_minTime args = None
      /\ exists hi, args_maxTime args = Some hi /\ ~ naive hi) ->
  select_best_time times (args_minTime args) (args_maxTime args)
  = Raise TypeError
  /\ tick nd_value args s
     = out TimeSlotListPresent
         [LogFound (time_slot_elements s); LogExtracted times]
         (Raised TypeError)
  /\ forall (fuel : nat) (pages : nat -> Snapshot) (i : nat),
       pages i = s ->
       main_loop nd_value args (S fuel) pages i
       = Some (Uncaught TypeError,
               [LogFound (time_slot_elements s); LogExtracted times]).
Proof.
  intros Hreach Hlinks Hex Haware.
  pose proof (extract_times_naive nd_value _ _ Hex) as Hnaive.
  assert (Hlen : List.length times = List.length (time_slot_elements s)).
  { apply (extract_times_length nd_value) in Hex. simpl in Hex. exact Hex. }
  destruct times as [|x times].
  { destruct (time_slot_elements s); [now elim Hlinks|discriminate Hlen]. }
  inversion Hnaive as [|? ? Hx _]; subst.
  pose proof (select_best_time_aware_bound x times _ _ Hx Haware) as Hsel.
  assert (Htick : tick nd_value args s
                  = out TimeSlotListPresent
                      [LogFound (time_slot_elements s);
                       LogExtracted (x :: times)]
                      (Raised TypeError)).
  { rewrite (tick_reaches_time_table s Hreach). unfold time_table_block.
    destruct (time_slot_elements s) as [|text texts]; [now elim Hlinks|].
    now rewrite Hex, Hsel. }
  repeat split; auto.
  intros fuel pages i Hi.
  rewrite (main_loop_raised nd_value args fuel pages i TypeError);
    rewrite Hi, Htick; reflexivity.
Qed.

End TickFacts.

Lemma time_table_click_is_selected_slot_second_link :
  exists idx text,
    nth_error [slot_text 66 "10:25"; slot_text 67 "10:40"] idx = Some text
    /\ parses ascii_only text (hm 10 40).
Proof.
  destruct (time_table_click_is_selected_slot ascii_only
              (mk_args 2 (mk_date 2026 3 31) (Some (hm 10 30)) None false)
              (mk_snapshot (lit "Reserve") (lit "<h1>Table Reservation</h1>")
                 false false false false true
                 [slot_text 66 "10:25"; slot_text 67 "10:40"]
                 (fun _ => true) true None false false (fun _ => None) false)
              [hm 10 25; hm 10 40] (hm 10 40) eq_refl eq_refl)
    as (idx & text & _ & Hnth & Hparse & _).
  exists idx, text. split; [exact Hnth|exact Hparse].
Defined.

Lemma aware_bound_raises_on_time_table_two_slots :
  select_best_time [hm 10 25; hm 10 40] (Some (hm_jst 10 30)) None
  = Raise TypeError
  /\ tick ascii_only args_aware_min page_two_slots
     = out TimeSlotListPresent
         [LogFound (time_slot_elements page_two_slots);
          LogExtracted [hm 10 25; hm 10 40]]
         (Raised TypeError).
Proof.
  assert (Hreach : reaches_time_table page_two_slots).
  { repeat split; reflexivity. }
  assert (Hlinks : time_slot_elements page_two_slots <> [])
    by discriminate.
  assert (Hex : extract_times ascii_only (time_slot_elements page_two_slots)
                  []
                = Ok [hm 10 25; hm 10 40]) by reflexivity.
  assert (Haware :
            (exists lo, args_minTime args_aware_min = Some lo /\ ~ naive lo)
            \/ (args_minTime args_aware_min = None
                /\ exists hi, args_maxTime args_aware_min = Some hi
                              /\ ~ naive hi)).
  { left. exists (hm_jst 10 30). split; [reflexivity|discriminate]. }
  destruct (aware_bound_raises_on_time_table ascii_only args_aware_min
              page_two_slots [hm 10 25; hm 10 40] Hreach Hlinks Hex Haware)
    as (Hsel & Htick & _).
  split; [exact Hsel|exact Htick].
Defined.

(** ** The pace of the loop *)

Lemma time_table_block_well_paced
  (nd_value : Z -> option Z) (args : Args) (s : Snapshot) :
  well_paced (time_table_block nd_value args s).
Proof.
  unfold time_table_block.
  destruct (time_slot_elements s) as [|text texts]; [paced|].
  destruct (extract_times nd_value (text :: texts) []) as [times|e]; [|paced].
  destruct (select_best_time times (args_minTime args) (args_maxTime args))
    as [[best|]|e]; [|paced|paced].
  destruct (index_of best times) as [idx|]; [|paced].
  destruct (idx <? List.length (text :: texts))%nat; paced.
Qed.

Lemma date_cell_block_well_paced (args : Args) (s : Snapshot) :
  well_paced (date_cell_block args s).
Proof.
  unfold date_cell_block.
  destruct (date_cell s (day (args_date args))) as [class|]; [|paced].
  destruct (negb (str_in (lit "selected") class)); [paced|].
  destruct (next_button s); paced.
Qed.

Lemma calendar_block_well_paced (args : Args) (s : Snapshot)
  (header_text : str) :
  well_paced (calendar_block args s header_text).
Proof.
  unfold calendar_block.
  destruct (re_split_non_digits header_text) as [|y [|m rest]];
    try paced.
  destruct (py_int y) as [selected_year|e]; [|paced].
  destruct (py_int m) as [selected_month|e]; [|paced].
  destruct (negb (selected_year =? year (args_date args))
            || negb (selected_month =? month (args_date args)));
    [|apply date_cell_block_well_paced].
  unfold month_pager_block, bind.
  destruct (date_new selected_year selected_month (day (args_date args)))
    as [shown|e]; [|paced].
  destruct (date_lt shown (args_date args)).
  - destruct (next_month_button s);
      [paced|apply date_cell_block_well_paced].
  - destruct (date_gt shown (args_date args));
      [|apply date_cell_block_well_paced].
    destruct (previous_month_button s);
      [paced|apply date_cell_block_well_paced].
Qed.

Lemma tick_well_paced
  (nd_value : Z -> option Z) (args : Args) (s : Snapshot) :
  well_paced (tick nd_value args s).
Proof.
  tick_cases s args ltac:(paced)
    ltac:(apply time_table_block_well_paced)
    ltac:(apply calendar_block_well_paced).
Qed.

(** X10.  A tick sends the page at most one command (a click or a
    selection), and whenever it sleeps it sleeps one polling interval of
    two seconds. *)
Theorem tick_at_most_one_command
  (nd_value : Z -> option Z) (args : Args) (s : Snapshot) :
  (commands (trace (tick nd_value args s)) <= 1)%nat
  /\ forall d, In (Sleep d) (trace (tick nd_value args s)) -> d = seconds 2.
Proof.
  destruct (tick_well_paced nd_value args s) as (H1 & H2 & _). auto.
Qed.

(** X11.  The loop does not spin: a tick that goes on to the next tick has
    either sent one command or slept one interval.  And it never reloads
    the page without having slept: a reload is the last thing a tick does,
    straight after a sleep of one interval. *)
Theorem tick_sleeps_or_acts
  (nd_value : Z -> option Z) (args : Args) (s : Snapshot) :
  (ctl (tick nd_value args s) = Continue ->
   commands (trace (tick nd_value args s)) = 1%nat
   \/ In (Sleep interval) (trace (tick nd_value args s)))
  /\ (In Refresh (trace (tick nd_value args s)) ->
      exists before,
        trace (tick nd_value args s) = before ++ [Sleep interval; Refresh]).
Proof.
  destruct (tick_well_paced nd_value args s) as (_ & _ & H3 & H4). auto.
Qed.

Lemma tick_sleeps_or_acts_when_congested :
  exists before,
    trace (tick ascii_only args_march_31
             (bare_page (lit "Reserve") (lit "The site is congested")))
    = before ++ [Sleep interval; Refresh].
Proof.
  apply (proj2 (tick_sleeps_or_acts ascii_only args_march_31
                  (bare_page (lit "Reserve") (lit "The site is congested")))).
  simpl. tauto.
Defined.

(** ** Leaving the loop *)

Lemma time_table_block_ends_on_pending
  (nd_value : Z -> option Z) (args : Args) (s : Snapshot) :
  ends_on_pending (time_table_block nd_value args s).
Proof.
  unfold time_table_block.
  destruct (time_slot_elements s) as [|text texts]; [pending|].
  destruct (extract_times nd_value (text :: texts) []) as [times|e];
    [|pending].
  destruct (select_best_time times (args_minTime args) (args_maxTime args))
    as [[best|]|e]; [|pending|pending].
  destruct (index_of best times) as [idx|]; [|pending].
  destruct (idx <? List.length (text :: texts))%nat; pending.
Qed.

Lemma date_cell_block_ends_on_pending (args : Args) (s : Snapshot) :
  ends_on_pending (date_cell_block args s).
Proof.
  unfold date_cell_block.
  destruct (date_cell s (day (args_date args))) as [class|]; [|pending].
  destruct (negb (str_in (lit "selected") class)); [pending|].
  destruct (next_button s); pending.
Qed.

Lemma calendar_block_ends_on_pending (args : Args) (s : Snapshot)
  (header_text : str) :
  ends_on_pending (calendar_block args s header_text).
Proof.
  unfold calendar_block.
  destruct (re_split_non_digits header_text) as [|y [|m rest]];
    try pending.
  destruct (py_int y) as [selected_year|e]; [|pending].
  destruct (py_int m) as [selected_month|e]; [|pending].
  destruct (negb (selected_year =? year (args_date args))
            || negb (selected_month =? month (args_date args)));
    [|apply date_cell_block_ends_on_pending].
  unfold month_pager_block, bind.
  destruct (date_new selected_year selected_month (day (args_date args)))
    as [shown|e]; [|pending].
  destruct (date_lt shown (args_date args)).
  - destruct (next_month_button s);
      [pending|apply date_cell_block_ends_on_pending].
  - destruct (date_gt shown (args_date args));
      [|apply date_cell_block_ends_on_pending].
    destruct (previous_month_button s);
      [pending|apply date_cell_block_ends_on_pending].
Qed.

Lemma tick_ends_on_pending
  (nd_value : Z -> option Z) (args : Args) (s : Snapshot) :
  ends_on_pending (tick nd_value args s).
Proof.
  tick_cases s args ltac:(pending)
    ltac:(apply time_table_block_ends_on_pending)
    ltac:(apply calendar_block_ends_on_pending).
Qed.

(** X12.  A tick leaves the loop by [break] exactly when the page is
    handled as a reservation pending completion: a reservation page without
    time table whose content has the marker "complete your reservation".
    It has then only logged the fact: the script sends the page no command,
    and leaves the completion to the operator. *)
Theorem tick_breaks_on_pending_only
  (nd_value : Z -> option Z) (args : Args) (s : Snapshot) :
  (ctl (tick nd_value args s) = Break
   <-> classify nd_value args s = ReservationPendingCompletion)
  /\ (ctl (tick nd_value args s) = Break ->
      trace (tick nd_value args s)
      = [Log "Reservation waiting for completion."]
      /\ time_table s = false
      /\ str_in (lit "complete your reservation") (page_source s) = true
      /\ str_in (lit "Table Reservation") (page_source s) = true).
Proof.
  destruct (tick_ends_on_pending nd_value args s) as [Hiff Htrace].
  split; [exact Hiff|].
  intros Hbreak. split; [now apply Htrace|]. revert Hbreak. clear.
  tick_cases s args ltac:(try discriminate; auto)
    ltac:(intros H;
          apply (proj1 (proj1 (time_table_block_ends_on_pending
                                 nd_value args s))) in H;
          rewrite (handler_time_table_block nd_value args s) in H;
          destruct (time_slot_elements s); discriminate H)
    ltac:(idtac;
          match goal with
          | |- ctl (calendar_block args s ?h) = Break -> _ =>
              intros H;
              apply (proj1 (proj1 (calendar_block_ends_on_pending
                                     args s h))) in H;
              pose proof (handler_calendar_block args s h) as Hin;
              rewrite H in Hin; simpl in Hin;
              repeat (destruct Hin as [Hin|Hin]; [discriminate Hin|]);
              destruct Hin
          end).
Qed.

Lemma tick_breaks_on_pending_only_at_pending :
  trace (tick ascii_only args_march_31 page_pending)
  = [Log "Reservation waiting for completion."]
  /\ time_table page_pending = false.
Proof.
  destruct (proj2 (tick_breaks_on_pending_only ascii_only args_march_31
                     page_pending) eq_refl) as (Htrace & Htable & _).
  split; [exact Htrace|exact Htable].
Defined.

(** ** The loop as a whole *)

Section LoopFacts.

Variable nd_value : Z -> option Z.
Variable args : Args.
Variable pages : nat -> Snapshot.

Lemma main_loop_step (fuel i : nat) :
  main_loop nd_value args (S fuel) pages i
  = match ctl (tick nd_value args (pages i)) with
    | Continue =>
        match main_loop nd_value args fuel pages (S i) with
        | Some (x, tr) => Some (x, trace (tick nd_value args (pages i)) ++ tr)
        | None => None
        end
    | Break => Some (Completed, trace (tick nd_value args (pages i)))
    | Raised e => Some (on_exception e, trace (tick nd_value args (pages i)))
    end.
Proof. reflexivity. Qed.

Lemma main_loop_stopped (fuel : nat) :
  forall (i : nat) (x : exit) (tr : list event),
    main_loop nd_value args fuel pages i = Some (x, tr) ->
    exists k,
      (i <= k)%nat
      /\ (forall j, (i <= j < k)%nat ->
                    ctl (tick nd_value args (pages j)) = Continue)
      /\ ((ctl (tick nd_value args (pages k)) = Break /\ x = Completed)
          \/ exists e, ctl (tick nd_value args (pages k)) = Raised e
                       /\ x = on_exception e)
      /\ tr = List.concat (map (fun j => trace (tick nd_value args (pages j)))
                             (seq i (S k - i))).
Proof.
  induction fuel as [|fuel IH]; intros i x tr H; [discriminate|].
  rewrite main_loop_step in H.
  destruct (ctl (tick nd_value args (pages i))) as [| |e] eqn:Hctl.
  - destruct (main_loop nd_value args fuel pages (S i)) as [[x' tr']|] eqn:Hrec;
      [|discriminate].
    injection H as <- <-.
    destruct (IH _ _ _ Hrec) as (k & Hik & Hcont & Hstop & ->).
    exists k. split; [lia|]. split; [|split; [exact Hstop|]].
    + intros j Hj. destruct (Nat.eq_dec j i) as [->|Hne]; auto.
      apply Hcont. lia.
    + replace (S k - i)%nat with (S (S k - S i)) by lia. reflexivity.
  - injection H as <- <-. exists i. split; [lia|].
    split; [intros j Hj; lia|]. split; [left; auto|].
    replace (S i - i)%nat with 1%nat by lia. simpl. now rewrite app_nil_r.
  - injection H as <- <-. exists i. split; [lia|].
    split; [intros j Hj; lia|]. split; [right; eauto|].
    replace (S i - i)%nat with 1%nat by lia. simpl. now rewrite app_nil_r.
Qed.

Lemma main_loop_stops (k : nat) :
  forall i : nat,
    (i <= k)%nat ->
    (forall j, (i <= j < k)%nat ->
               ctl (tick nd_value args (pages j)) = Continue) ->
    ctl (tick nd_value args (pages k)) <> Continue ->
    exists x tr,
      main_loop nd_value args (S (k - i)) pages i = Some (x, tr).
Proof.
  intros i Hik. remember (k - i)%nat as d eqn:Hd. revert i Hik Hd.
  induction d as [|d IH]; intros i Hik Hd Hcont Hstop.
  - assert (i = k) as -> by lia. rewrite main_loop_step.
    destruct (ctl (tick nd_value args (pages k))); eauto. contradiction.
  - rewrite main_loop_step. rewrite (Hcont i) by lia.
    destruct (IH (S i)) as (x & tr & Hrun); try lia; auto.
    { intros j Hj. apply Hcont. lia. }
    rewrite Hrun. eauto.
Qed.

(** X13.  The loop stops at the first tick that breaks or raises, and not
    before: every tick before it went on, the exit is [Completed] for a
    break and what the [except] clauses make of the exception otherwise,
    and the run has done, in order, what each of its ticks did.  Given a
    tick that does not go on, the loop does stop there. *)
Theorem main_loop_stops_at_first :
  (forall (fuel i : nat) (x : exit) (tr : list event),
      main_loop nd_value args fuel pages i = Some (x, tr) ->
      exists k,
        (i <= k)%nat
        /\ (forall j, (i <= j < k)%nat ->
                      ctl (tick nd_value args (pages j)) = Continue)
        /\ ((ctl (tick nd_value args (pages k)) = Break /\ x = Completed)
            \/ exists e, ctl (tick nd_value args (pages k)) = Raised e
                         /\ x = on_exception e)
        /\ tr = List.concat (map (fun j => trace (tick nd_value args (pages j)))
                               (seq i (S k - i))))
  /\ (forall i k : nat,
        (i <= k)%nat ->
        (forall j, (i <= j < k)%nat ->
                   ctl (tick nd_value args (pages j)) = Continue) ->
        ctl (tick nd_value args (pages k)) <> Continue ->
        exists x tr,
          main_loop nd_value args (S (k - i)) pages i = Some (x, tr)).
Proof.
  split.
  - intros fuel. apply main_loop_stopped.
  - intros i k. apply main_loop_stops.
Qed.

(** X14.  As long as every tick goes on, the loop does not end, whatever
    the number of ticks: the script has no timeout and no bound on its
    retries. *)
Theorem main_loop_never_ends (i : nat) :
  (forall j, (i <= j)%nat -> ctl (tick nd_value args (pages j)) = Continue) ->
  forall fuel : nat, main_loop nd_value args fuel pages i = None.
Proof.
  intros Hcont fuel. revert i Hcont.
  induction fuel as [|fuel IH]; intros i Hcont; [reflexivity|].
  rewrite main_loop_step, (Hcont i) by lia.
  rewrite (IH (S i)); [reflexivity|]. intros j Hj. apply Hcont. lia.
Qed.

End LoopFacts.

Lemma main_loop_stops_at_first_after_captcha :
  exists x tr,
    main_loop ascii_only args_march_31 3
      (fun i => match i with
                | 0%nat | 1%nat => page_captcha
                | _ => page_pending
                end) 0
    = Some (x, tr).
Proof.
  apply (proj2 (main_loop_stops_at_first ascii_only args_march_31
                  (fun i => match i with
                            | 0%nat | 1%nat => page_captcha
                            | _ => page_pending
                            end)) 0%nat 2%nat).
  - lia.
  - intros j Hj. destruct j as [|[|j]]; [reflexivity|reflexivity|lia].
  - discriminate.
Defined.

(** While the captcha stays unsolved the loop keeps polling. *)
Lemma main_loop_never_ends_on_captcha :
  main_loop ascii_only args_march_31 100 (fun _ => page_captcha) 0 = None.
Proof.
  apply (main_loop_never_ends ascii_only args_march_31
           (fun _ => page_captcha) 0).
  intros j Hj. reflexivity.
Defined.

(** ** More on the calendar *)

Lemma re_split_non_digits_cons (s : str) :
  exists p ps, re_split_non_digits s = p :: ps.
Proof.
  destruct s as [|c s]; simpl; [eauto|].
  destruct (ascii_digit c); [|eauto].
  destruct (re_split_non_digits s); eauto.
Qed.

Section CalendarFacts.

Variable nd_value : Z -> option Z.
Variable args : Args.
Variable s : Snapshot.
Variable header_text : str.
Hypothesis Hreach : reaches_calendar args s.
Hypothesis Hheader : calendar_header s = Some header_text.

Lemma tick_is_calendar_block :
  tick nd_value args s = calendar_block args s header_text.
Proof. now rewrite (tick_reaches_calendar nd_value args s Hreach), Hheader. Qed.

(** The tick once the header has given a year and a month. *)
Lemma tick_header_parsed (ys ms : str) (rest : list str) (y m : Z) :
  re_split_non_digits header_text = ys :: ms :: rest ->
  py_int ys = Ok y ->
  py_int ms = Ok m ->
  tick nd_value args s
  = if negb (y =? year (args_date args)) || negb (m =? month (args_date args))
    then match month_pager_block args s y m with
         | Raise e => out CalendarMonthMismatch [] (Raised e)
         | Ok (Some o) => o
         | Ok None => date_cell_block args s
         end
    else date_cell_block args s.
Proof.
  intros Hsplit Hy Hm. rewrite tick_is_calendar_block.
  unfold calendar_block. now rewrite Hsplit, Hy, Hm.
Qed.

End CalendarFacts.

(** X15.  When a tick reaches the calendar and the header text begins with
    a character that is not an ASCII digit (a header such as
    "December 2026"), the first piece of the split header is empty,
    [int('')] raises [ValueError], and the loop ends with the exception
    uncaught, having logged nothing. *)
Theorem calendar_header_leading_text_raises
  (nd_value : Z -> option Z) (args : Args) (s : Snapshot)
  (c : Z) (rest : str) :
  reaches_calendar args s ->
  calendar_header s = Some (c :: rest) ->
  ascii_digit c = false ->
  tick nd_value args s = out Unclassified [] (Raised ValueError)
  /\ forall (fuel i : nat),
       main_loop nd_value args (S fuel) (fun _ => s) i
       = Some (Uncaught ValueError, []).
Proof.
  intros Hreach Hheader Hc.
  assert (Htick : tick nd_value args s
                  = out Unclassified [] (Raised ValueError)).
  { rewrite (tick_is_calendar_block nd_value args s (c :: rest) Hreach Hheader).
    unfold calendar_block. cbn [re_split_non_digits]. rewrite Hc.
    destruct (re_split_non_digits_cons rest) as (p & ps & ->).
    reflexivity. }
  split; [exact Htick|]. intros fuel i.
  rewrite (main_loop_raised nd_value args fuel _ i ValueError);
    now rewrite Htick.
Qed.

Lemma calendar_header_leading_text_raises_in_english :
  tick ascii_only args_march_31
    (mk_snapshot (lit "Reserve") (lit "<h1>Table Reservation</h1>")
       false false false false false []
       (fun _ => true) true (Some (lit "March 2026")) true true
       (fun _ => None) false)
  = out Unclassified [] (Raised ValueError).
Proof.
  apply (calendar_header_leading_text_raises ascii_only args_march_31
           (mk_snapshot (lit "Reserve") (lit "<h1>Table Reservation</h1>")
              false false false false false []
              (fun _ => true) true (Some (lit "March 2026")) true true
              (fun _ => None) false)
           77 (lit "arch 2026")).
  - repeat split; reflexivity.
  - reflexivity.
  - reflexivity.
Defined.

Lemma date_new_ok (y m d : Z) (shown : date) :
  date_new y m d = Ok shown -> shown = mk_date y m d.
Proof.
  unfold date_new.
  repeat match goal with
         | |- context [if ?b then _ else _] => destruct b
         end; intros H; try discriminate; now injection H.
Qed.

Lemma date_lt_same_day (y m : Z) (d : date) :
  date_lt (mk_date y m (day d)) d = true <-> month_earlier y m d.
Proof.
  unfold date_lt, date_cmp, lex, month_earlier. simpl.
  rewrite Z.compare_refl.
  destruct (Z.compare_spec y (year d)), (Z.compare_spec m (month d));
    split; intros; try discriminate; try reflexivity; lia.
Qed.

Lemma date_gt_same_day (y m : Z) (d : date) :
  date_gt (mk_date y m (day d)) d = true <-> month_later y m d.
Proof.
  unfold date_gt, date_cmp, lex, month_later. simpl.
  rewrite Z.compare_refl.
  destruct (Z.compare_spec y (year d)), (Z.compare_spec m (month d));
    split; intros; try discriminate; try reflexivity; lia.
Qed.

Lemma month_pager_block_direction (args : Args) (s : Snapshot)
  (y m : Z) (shown : date) :
  date_new y m (day (args_date args)) = Ok shown ->
  (month_earlier y m (args_date args) ->
   month_pager_block args s y m
   = Ok (if next_month_button s
         then Some (out CalendarMonthMismatch
                      [Log "Selecting the next month."; Click NextMonthButton]
                      Continue)
         else None))
  /\ (month_later y m (args_date args) ->
      month_pager_block args s y m
      = Ok (if previous_month_button s
            then Some (out CalendarMonthMismatch
                         [Log "Selecting the previous month.";
                          Click PreviousMonthButton]
                         Continue)
            else None)).
Proof.
  intros Hdate. pose proof (date_new_ok _ _ _ _ Hdate) as ->.
  unfold month_pager_block. rewrite Hdate. cbn [bind].
  split; intros H.
  - now rewrite (proj2 (date_lt_same_day y m (args_date args)) H).
  - destruct (date_lt (mk_date y m (day (args_date args))) (args_date args))
      eqn:E.
    + apply date_lt_same_day in E. unfold month_earlier, month_later in *. lia.
    + now rewrite (proj2 (date_gt_same_day y m (args_date args)) H).
Qed.

Lemma month_differs (y m : Z) (d : date) :
  month_earlier y m d \/ month_later y m d ->
  negb (y =? year d) || negb (m =? month d) = true.
Proof.
  unfold month_earlier, month_later. intros H.
  destruct (Z.eqb_spec y (year d)), (Z.eqb_spec m (month d)); simpl; auto; lia.
Qed.

(** X16.  When a tick reaches the calendar, the header reads a year and a
    month, and the requested day exists in the displayed month: if the
    displayed month is earlier than the requested one and the next-month
    pager is found, the tick clicks it; if it is later and the
    previous-month pager is found, the tick clicks that one; and it does
    nothing else. *)
Theorem month_pager_direction
  (nd_value : Z -> option Z) (args : Args) (s : Snapshot)
  (header_text ys ms : str) (rest : list str) (y m : Z) (shown : date) :
  reaches_calendar args s ->
  calendar_header s = Some header_text ->
  re_split_non_digits header_text = ys :: ms :: rest ->
  py_int ys = Ok y ->
  py_int ms = Ok m ->
  date_new y m (day (args_date args)) = Ok shown ->
  (month_earlier y m (args_date args) -> next_month_button s = true ->
   tick nd_value args s
   = out CalendarMonthMismatch
       [Log "Selecting the next month."; Click NextMonthButton] Continue)
  /\ (month_later y m (args_date args) -> previous_month_button s = true ->
      tick nd_value args s
      = out CalendarMonthMismatch
          [Log "Selecting the previous month."; Click PreviousMonthButton]
          Continue).
Proof.
  intros Hreach Hheader Hsplit Hy Hm Hdate.
  pose proof (tick_header_parsed nd_value args s header_text Hreach Hheader
                ys ms rest y m Hsplit Hy Hm) as Htick.
  destruct (month_pager_block_direction args s y m shown Hdate)
    as [Hnext Hprev].
  split; intros Hdir Hbutton; rewrite Htick.
  - rewrite (month_differs y m (args_date args) (or_introl Hdir)).
    now rewrite (Hnext Hdir), Hbutton.
  - rewrite (month_differs y m (args_date args) (or_intror Hdir)).
    now rewrite (Hprev Hdir), Hbutton.
Qed.

(** X17.  In the same situation with the pager not found, the tick does
    not stop at the wrong month: it goes on to the date cell as if the
    displayed month were the requested one, so that a cell of the displayed
    month holding the requested day, when found unselected, is clicked. *)
Theorem month_pager_missing_falls_through
  (nd_value : Z -> option Z) (args : Args) (s : Snapshot)
  (header_text ys ms : str) (rest : list str) (y m : Z) (shown : date) :
  reaches_calendar args s ->
  calendar_header s = Some header_text ->
  re_split_non_digits header_text = ys :: ms :: rest ->
  py_int ys = Ok y ->
  py_int ms = Ok m ->
  date_new y m (day (args_date args)) = Ok shown ->
  (month_earlier y m (args_date args) /\ next_month_button s = false)
  \/ (month_later y m (args_date args) /\ previous_month_button s = false) ->
  tick nd_value args s = date_cell_block args s
  /\ forall class,
       date_cell s (day (args_date args)) = Some class ->
       str_in (lit "selected") class = false ->
       tick nd_value args s
       = out DateUnselected
           [Log "Selecting the day of the month."; Click DateCell] Continue.
Proof.
  intros Hreach Hheader Hsplit Hy Hm Hdate Hmissing.
  pose proof (tick_header_parsed nd_value args s header_text Hreach Hheader
                ys ms rest y m Hsplit Hy Hm) as Htick.
  destruct (month_pager_block_direction args s y m shown Hdate)
    as [Hnext Hprev].
  assert (Hcell : tick nd_value args s = date_cell_block args s).
  { rewrite Htick. destruct Hmissing as [[Hdir Hbutton]|[Hdir Hbutton]].
    - rewrite (month_differs y m (args_date args) (or_introl Hdir)).
      now rewrite (Hnext Hdir), Hbutton.
    - rewrite (month_differs y m (args_date args) (or_intror Hdir)).
      now rewrite (Hprev Hdir), Hbutton. }
  split; [exact Hcell|].
  intros class Hclass Hsel. rewrite Hcell. unfold date_cell_block.
  now rewrite Hclass, Hsel.
Qed.

Lemma month_pager_direction_from_february :
  tick ascii_only args_march_15 page_february
  = out CalendarMonthMismatch
      [Log "Selecting the next month."; Click NextMonthButton] Continue.
Proof.
  assert (Hreach : reaches_calendar args_march_15 page_february)
    by (repeat split; reflexivity).
  assert (Hheader : calendar_header page_february = Some header_february_2026)
    by reflexivity.
  assert (Hsplit : re_split_non_digits header_february_2026
                   = lit "2026" :: lit "2" :: [[]])
    by reflexivity.
  assert (Hy : py_int (lit "2026") = Ok 2026) by reflexivity.
  assert (Hm : py_int (lit "2") = Ok 2) by reflexivity.
  assert (Hdate : date_new 2026 2 (day (args_date args_march_15))
                  = Ok (mk_date 2026 2 15))
    by reflexivity.
  apply (proj1 (month_pager_direction ascii_only args_march_15 page_february
                  header_february_2026 (lit "2026") (lit "2") [[]] 2026 2
                  (mk_date 2026 2 15) Hreach Hheader Hsplit Hy Hm Hdate)).
  - right. simpl. lia.
  - reflexivity.
Defined.

Lemma month_pager_missing_falls_through_in_february :
  tick ascii_only args_march_15 page_february_no_pager
  = out DateUnselected
      [Log "Selecting the day of the month."; Click DateCell] Continue.
Proof.
  assert (Hreach : reaches_calendar args_march_15 page_february_no_pager)
    by (repeat split; reflexivity).
  assert (Hheader : calendar_header page_february_no_pager
                    = Some header_february_2026)
    by reflexivity.
  assert (Hsplit : re_split_non_digits header_february_2026
                   = lit "2026" :: lit "2" :: [[]])
    by reflexivity.
  assert (Hy : py_int (lit "2026") = Ok 2026) by reflexivity.
  assert (Hm : py_int (lit "2") = Ok 2) by reflexivity.
  assert (Hdate : date_new 2026 2 (day (args_date args_march_15))
                  = Ok (mk_date 2026 2 15))
    by reflexivity.
  assert (Hmissing :
            (month_earlier 2026 2 (args_date args_march_15)
             /\ next_month_button page_february_no_pager = false)
            \/ (month_later 2026 2 (args_date args_march_15)
                /\ previous_month_button page_february_no_pager = false)).
  { left. split; [right; simpl; lia|reflexivity]. }
  apply (proj2 (month_pager_missing_falls_through ascii_only args_march_15
                  page_february_no_pager header_february_2026
                  (lit "2026") (lit "2") [[]] 2026 2 (mk_date 2026 2 15)
                  Hreach Hheader Hsplit Hy Hm Hdate Hmissing)
           (lit "calendar-day-cell")).
  - reflexivity.
  - reflexivity.
Defined.


(** ** More on the waiter *)

(** X18.  The waiter never asks for a sleep of zero or negative length:
    every sleep of a wait that returns is strictly positive. *)
Theorem wait_until_datetime_sleeps_positive
  (clock : nat -> Z) (target : Z) (fuel i k : nat) (tr : list event) (d : Z) :
  wait_until_datetime clock fuel target i = Some (k, tr) ->
  In (Sleep d) tr ->
  0 < d.
Proof.
  intros Hrun Hin.
  destruct (wait_until_datetime_returned clock target fuel i k tr Hrun)
    as (_ & _ & Hbefore & ->).
  apply in_app_or in Hin. destruct Hin as [Hin|[Hin|[]]]; [|discriminate].
  apply in_map_iff in Hin. destruct Hin as (j & Hj & Hseq).
  injection Hj as <-. apply in_seq in Hseq.
  assert (clock j < target) by (apply Hbefore; lia). lia.
Qed.

Lemma wait_until_datetime_sleeps_positive_at_25 : 0 < 15.
Proof.
  apply (wait_until_datetime_sleeps_positive ticking_clock 25 10 0 3
           [Sleep 25; Sleep 15; Sleep 5; Log "Target time reached!"] 15).
  - reflexivity.
  - simpl. tauto.
Defined.

(** X19.  If every sleep lasts at least as long as it was asked to, so that
    the reading after a reading short of the target has reached it, the
    waiter returns after at most one sleep. *)
Theorem wait_until_datetime_one_sleep
  (clock : nat -> Z) (target : Z) (fuel i : nat) :
  (forall j, clock j < target -> target <= clock (S j)) ->
  exists k tr,
    wait_until_datetime clock (S (S fuel)) target i = Some (k, tr)
    /\ (k <= S i)%nat
    /\ (tr = [Log "Target time reached!"]
        \/ tr = [Sleep (target - clock i); Log "Target time reached!"]).
Proof.
  intros Hsleep. rewrite wait_until_datetime_step.
  destruct (Z.geb_spec (clock i) target) as [Hreached|Hshort].
  - exists i. eexists. split; [reflexivity|]. split; [lia|now left].
  - rewrite wait_until_datetime_step.
    destruct (Z.geb_spec (clock (S i)) target) as [Hreached|Hshort'].
    + exists (S i). eexists. split; [reflexivity|]. split; [lia|now right].
    + specialize (Hsleep i Hshort). lia.
Qed.

Lemma wait_until_datetime_one_sleep_exact :
  exists k tr,
    wait_until_datetime (fun i => 100 * Z.of_nat i) 2 50 0 = Some (k, tr)
    /\ (k <= 1)%nat
    /\ (tr = [Log "Target time reached!"]
        \/ tr = [Sleep (50 - 0); Log "Target time reached!"]).
Proof.
  apply (wait_until_datetime_one_sleep (fun i => 100 * Z.of_nat i) 50 0 0).
  intros j Hj. simpl in Hj. lia.
Defined.

Lemma wait_until_datetime_more_fuel (clock : nat -> Z) (target : Z)
  (fuel : nat) :
  forall (fuel' i : nat) (r : nat * list event),
    wait_until_datetime clock fuel target i = Some r ->
    (fuel <= fuel')%nat ->
    wait_until_datetime clock fuel' target i = Some r.
Proof.
  induction fuel as [|fuel IH]; intros fuel' i r H Hle; [discriminate|].
  destruct fuel' as [|fuel']; [lia|].
  rewrite wait_until_datetime_step in *.
  destruct (clock i >=? target); [exact H|].
  destruct (wait_until_datetime clock fuel target (S i)) as [[k tr]|] eqn:Hrec;
    [|discriminate].
  rewrite (IH fuel' (S i) (k, tr) Hrec); [exact H|lia].
Qed.

(** X20.  Started with the wait flag more than a minute before the
    opening, the script logs the instant one minute before the opening as
    the one it waits for, but sleeps on until a reading of the clock has
    reached the opening instant itself: once some reading has reached it,
    every sleep asked for being one that [sleep] accepts, the wait returns
    at the first such reading, having slept after each reading before it
    for the opening less the reading; and a wait that returns has done
    that and nothing else.  Without the flag, or from one minute before the
    opening on, the script does not sleep at all and goes on at once. *)
Theorem startup_wait_until_opening (clock : nat -> Z) (args : Args) :
  let opening := reservations_open (args_date args) in
  (args_wait args = true -> clock O < opening - minutes 1 ->
   forall n : nat,
     (1 <= n)%nat -> opening <= clock n ->
     (forall j, clock j < opening -> opening - clock j <= sleep_max) ->
     exists k,
       (1 <= k <= n)%nat
       /\ opening <= clock k
       /\ (forall j, (1 <= j < k)%nat -> clock j < opening)
       /\ forall fuel,
            (n <= fuel)%nat ->
            startup_wait clock fuel args
            = Some ([LogOpening opening; LogWaiting (opening - minutes 1)]
                    ++ map (fun j => Sleep (opening - clock j))
                         (seq 1 (k - 1))
                    ++ [Log "Target time reached!"]))
  /\ (forall (fuel : nat) (tr : list event),
        startup_wait clock fuel args = Some tr ->
        args_wait args = true -> clock O < opening - minutes 1 ->
        exists k,
          (1 <= k)%nat
          /\ opening <= clock k
          /\ (forall j, (1 <= j < k)%nat -> clock j < opening)
          /\ tr = [LogOpening opening; LogWaiting (opening - minutes 1)]
                  ++ map (fun j => Sleep (opening - clock j)) (seq 1 (k - 1))
                  ++ [Log "Target time reached!"])
  /\ (args_wait args = false \/ opening - minutes 1 <= clock O ->
      forall fuel : nat,
        exists tr,
          startup_wait clock fuel args = Some tr
          /\ forall d, ~ In (Sleep d) tr).
Proof.
  intros opening. split; [|split].
  - intros Hflag Hearly n Hn Hreach _.
    destruct (wait_until_datetime_returns clock opening n 1%nat Hn Hreach)
      as (k & tr & Hrun & Hkn).
    replace (S (n - 1)) with n in Hrun by lia.
    destruct (wait_until_datetime_returned clock opening n 1 k tr Hrun)
      as (Hk & Hreached & Hbefore & ->).
    exists k. repeat split; auto.
    intros fuel Hfuel. unfold startup_wait, wait_handling.
    fold opening. rewrite Hflag.
    destruct (Z.ltb_spec (clock O) (opening - minutes 1)); [|lia].
    now rewrite (wait_until_datetime_more_fuel clock opening n fuel 1 _ Hrun
                   Hfuel).
  - intros fuel tr Hrun Hflag Hearly.
    unfold startup_wait, wait_handling in Hrun. fold opening in Hrun.
    rewrite Hflag in Hrun.
    destruct (Z.ltb_spec (clock O) (opening - minutes 1)); [|lia].
    destruct (wait_until_datetime clock fuel opening 1) as [[k tr']|] eqn:Hw;
      [|discriminate].
    injection Hrun as <-.
    destruct (wait_until_datetime_returned clock opening fuel 1 k tr' Hw)
      as (Hk & Hreached & Hbefore & ->).
    exists k. repeat split; auto.
  - intros Hskip fuel. unfold startup_wait, wait_handling. fold opening.
    destruct (args_wait args).
    + destruct Hskip as [Hflag|Hlate]; [discriminate|].
      destruct (Z.ltb_spec (clock O) (opening - minutes 1)); [lia|].
      eexists. split; [reflexivity|]. intros d Hin. simpl in Hin.
      destruct Hin as [Hin|[Hin|[]]]; discriminate.
    + eexists. split; [reflexivity|]. intros d [].
Qed.

Lemma startup_wait_until_opening_two_minutes_early :
  startup_wait clock_before_opening 2 args_december_25
  = Some [LogOpening (reservations_open (mk_date 2026 12 25));
          LogWaiting (reservations_open (mk_date 2026 12 25) - minutes 1);
          Sleep (minutes 1);
          Log "Target time reached!"].
Proof.
  assert (Hflag : args_wait args_december_25 = true) by reflexivity.
  assert (Hearly : clock_before_opening 0
                   < reservations_open (args_date args_december_25)
                     - minutes 1) by reflexivity.
  assert (Hreach : reservations_open (args_date args_december_25)
                   <= clock_before_opening 2)
    by (vm_compute; discriminate).
  assert (Hsleep : forall j,
             clock_before_opening j
             < reservations_open (args_date args_december_25) ->
             reservations_open (args_date args_december_25)
             - clock_before_opening j <= sleep_max).
  { intros j _. unfold clock_before_opening, args_december_25, args_date.
    unfold sleep_max, minutes, seconds, us_per_second. lia. }
  destruct (proj1 (startup_wait_until_opening clock_before_opening
                     args_december_25)
              Hflag Hearly 2%nat (le_S _ _ (le_n 1)) Hreach Hsleep)
    as (k & Hk & Hreached & _ & Hrun).
  assert (Hk2 : k = 2%nat).
  { destruct Hk as [Hk1 Hk2]. destruct k as [|[|[|k]]]; try lia.
    exfalso. vm_compute in Hreached. now apply Hreached. }
  subst k. rewrite (Hrun 2%nat (le_n 2)). reflexivity.
Defined.

(** ** [wait_until_not_found] *)

Section PageSourceFacts.

Variable page_source_at : nat -> result (option str).
Variable text_to_find : str.
Variable check_interval : Z.

Lemma wait_until_not_found_returned (fuel : nat) :
  forall (i n : nat) (tr : list event),
    wait_until_not_found page_source_at fuel text_to_find check_interval i
    = Some (Ok n, tr) ->
    (exists j,
        n = S j /\ (i <= j)%nat
        /\ (page_source_at j = Raise NoSuchElementException
            \/ exists source,
                 page_source_at j = Ok (Some source)
                 /\ str_in text_to_find source = false))
    /\ (forall ev, In ev tr -> ev = Sleep check_interval /\ 0 <= check_interval).
Proof.
  induction fuel as [|fuel IH]; intros i n tr H; [discriminate|].
  cbn [wait_until_not_found] in H.
  assert (Hgo : forall next,
             (i <= next)%nat ->
             (if check_interval <? 0 then Some (Raise ValueError, [])
              else
                match wait_until_not_found page_source_at fuel text_to_find
                        check_interval next with
                | Some (r, tr0) => Some (r, Sleep check_interval :: tr0)
                | None => None
                end) = Some (Ok n, tr) ->
             (exists j,
                 n = S j /\ (i <= j)%nat
                 /\ (page_source_at j = Raise NoSuchElementException
                     \/ exists source,
                          page_source_at j = Ok (Some source)
                          /\ str_in text_to_find source = false))
             /\ (forall ev, In ev tr ->
                            ev = Sleep check_interval /\ 0 <= check_interval)).
  { intros next Hnext Hrun.
    destruct (Z.ltb_spec check_interval 0); [discriminate|].
    destruct (wait_until_not_found page_source_at fuel text_to_find
                check_interval next) as [[r tr0]|] eqn:Hrec; [|discriminate].
    injection Hrun as -> <-.
    destruct (IH _ _ _ Hrec) as ((j & -> & Hj & Hlast) & Hsleeps).
    split.
    - exists j. repeat split; auto. lia.
    - intros ev [<-|Hin]; [split; [reflexivity|lia]|now apply Hsleeps]. }
  destruct (page_source_at i) as [[source|]|e] eqn:Hread.
  - destruct (page_source_at (S i)) as [[source'|]|e'] eqn:Hread'.
    + destruct (str_in text_to_find source') eqn:Hfound.
      * apply (Hgo (S (S i))); [lia|exact H].
      * injection H as <- <-. split; [|intros ev []].
        exists (S i). repeat split; [lia|]. right. eauto.
    + discriminate.
    + destruct e'; try discriminate. injection H as <- <-.
      split; [|intros ev []]. exists (S i). repeat split; [lia|]. now left.
  - apply (Hgo (S i)); [lia|exact H].
  - destruct e; try discriminate. injection H as <- <-.
    split; [|intros ev []]. exists i. repeat split; [lia|]. now left.
Qed.

Lemma wait_until_not_found_goes_on (fuel : nat) :
  (forall j, exists source,
        page_source_at j = Ok (Some source)
        /\ str_in text_to_find source = true) ->
  0 <= check_interval ->
  forall i : nat,
    wait_until_not_found page_source_at fuel text_to_find check_interval i
    = None.
Proof.
  intros Hshown Hinterval.
  induction fuel as [|fuel IH]; intros i; [reflexivity|].
  cbn [wait_until_not_found].
  destruct (Hshown i) as (source & -> & _).
  destruct (Hshown (S i)) as (source' & -> & ->).
  destruct (Z.ltb_spec check_interval 0); [lia|].
  now rewrite IH.
Qed.

End PageSourceFacts.

(** X21.  [wait_until_not_found] returns normally only after a read of the
    page source that either raised [NoSuchElementException] or gave a
    source in which the text does not occur; until then it has done
    nothing but sleep, each time for the check interval, which is then not
    negative. *)
Theorem wait_until_not_found_returns_when_gone
  (page_source_at : nat -> result (option str)) (text_to_find : str)
  (check_interval : Z) (fuel i n : nat) (tr : list event) :
  wait_until_not_found page_source_at fuel text_to_find check_interval i
  = Some (Ok n, tr) ->
  (exists j,
      n = S j /\ (i <= j)%nat
      /\ (page_source_at j = Raise NoSuchElementException
          \/ exists source,
               page_source_at j = Ok (Some source)
               /\ str_in text_to_find source = false))
  /\ (forall ev, In ev tr -> ev = Sleep check_interval /\ 0 <= check_interval).
Proof. apply wait_until_not_found_returned. Qed.

Lemma wait_until_not_found_returns_when_gone_solved :
  exists j,
    6%nat = S j /\ (0 <= j)%nat
    /\ (source_captcha_solved j = Raise NoSuchElementException
        \/ exists source,
             source_captcha_solved j = Ok (Some source)
             /\ str_in (lit "confirm you are human") source = false).
Proof.
  apply (proj1 (wait_until_not_found_returns_when_gone source_captcha_solved
                  (lit "confirm you are human") (seconds 2) 5 0 6
                  [Sleep (seconds 2); Sleep (seconds 2)] eq_refl)).
Defined.

(** X22.  While every read of the page source shows the text, and the
    check interval is not negative, [wait_until_not_found] does not
    return, whatever the number of passes. *)
Theorem wait_until_not_found_while_shown
  (page_source_at : nat -> result (option str)) (text_to_find : str)
  (check_interval : Z) (fuel i : nat) :
  (forall j, exists source,
        page_source_at j = Ok (Some source)
        /\ str_in text_to_find source = true) ->
  0 <= check_interval ->
  wait_until_not_found page_source_at fuel text_to_find check_interval i
  = None.
Proof. intros Hshown Hinterval. now apply wait_until_not_found_goes_on. Qed.

Lemma wait_until_not_found_while_shown_captcha :
  wait_until_not_found source_with_captcha 50
    (lit "confirm you are human") (seconds 2) 0
  = None.
Proof.
  apply (wait_until_not_found_while_shown source_with_captcha
           (lit "confirm you are human") (seconds 2) 50 0).
  - intros j. exists (lit "Please confirm you are human").
    split; reflexivity.
  - vm_compute. discriminate.
Defined.

(** ** The checks before the browser starts *)

Lemma str_eqb_eq (a b : str) : str_eqb a b = true <-> a = b.
Proof.
  revert b. induction a as [|x a IH]; intros [|y b]; simpl;
    try (split; [discriminate|discriminate]); [tauto|].
  rewrite andb_true_iff, Z.eqb_eq, IH. split.
  - intros [-> ->]. reflexivity.
  - intros H. injection H as -> ->. auto.
Qed.

Lemma existsb_str_eqb (x : str) (l : list str) :
  existsb (str_eqb x) l = true <-> In x l.
Proof.
  rewrite existsb_exists. split.
  - intros (y & Hy & Heq). apply str_eqb_eq in Heq. now subst.
  - intros H. exists x. split; [exact H|]. now apply str_eqb_eq.
Qed.

Lemma time_ge_false_lt (a b : time) :
  time_ge a b = Ok false -> time_lt a b = Ok true.
Proof.
  unfold time_ge, time_lt, ordering.
  destruct (py_cmp a b) as [[| |]|]; simpl; congruence.
Qed.

(** A command line that [argparse] refuses. *)
Lemma startup_checks_refused (cl : CommandLine) (today : date) :
  existsb (str_eqb (cl_city cl)) city_choices = false
  \/ existsb (str_eqb (cl_guests cl)) guests_choices = false ->
  startup_checks cl today = Ok None.
Proof.
  unfold startup_checks.
  destruct (existsb (str_eqb (cl_city cl)) city_choices); [|reflexivity].
  intros [H|H]; [discriminate|]. now rewrite H.
Qed.

(** What is left of the checks once [argparse] has let the city and the
    guest count through. *)
Lemma startup_checks_chosen (cl : CommandLine) (today : date) :
  In (cl_city cl) city_choices ->
  In (cl_guests cl) guests_choices ->
  exists website g,
    startup_checks cl today
    = (inverted <- match cl_minTime cl, cl_maxTime cl with
                   | Some lo, Some hi => time_ge lo hi
                   | _, _ => Ok false
                   end ;;
       if inverted then Ok None
       else if date_lt (cl_date cl) today then Ok None
            else Ok (Some (website,
                           mk_args g (cl_date cl)
                             (cl_minTime cl) (cl_maxTime cl) (cl_wait cl))))%py
    /\ ((In (cl_city cl) [lit "tokyo"; lit "Tokyo"]
         /\ website = tokyo_website)
        \/ (In (cl_city cl) [lit "osaka"; lit "Osaka"]
            /\ website = osaka_website))
    /\ 1 <= g <= 6.
Proof.
  intros Hcity Hguests. unfold startup_checks.
  rewrite (proj2 (existsb_str_eqb _ _) Hcity).
  rewrite (proj2 (existsb_str_eqb _ _) Hguests). cbn [negb].
  assert (Hint : exists g, py_int (cl_guests cl) = Ok g /\ 1 <= g <= 6).
  { unfold guests_choices in Hguests. simpl in Hguests.
    repeat (destruct Hguests as [<-|Hguests];
            [eexists; split;
             [reflexivity|vm_compute; split; discriminate]|]).
    destruct Hguests. }
  destruct Hint as (g & Hg & Hrange). rewrite Hg.
  assert (Hsite :
            exists website,
              (if str_eqb (lower (cl_city cl)) (lit "tokyo")
               then Some tokyo_website
               else if str_eqb (lower (cl_city cl)) (lit "osaka")
                    then Some osaka_website else None)
              = Some website
              /\ ((In (cl_city cl) [lit "tokyo"; lit "Tokyo"]
                   /\ website = tokyo_website)
                  \/ (In (cl_city cl) [lit "osaka"; lit "Osaka"]
                      /\ website = osaka_website))).
  { unfold city_choices in Hcity. simpl in Hcity.
    destruct Hcity as [<-|[<-|[<-|[<-|[]]]]];
      [exists tokyo_website|exists osaka_website
       |exists tokyo_website|exists osaka_website];
      (split; [reflexivity|]); [left|right|left|right];
      (split; [simpl; tauto|reflexivity]). }
  destruct Hsite as (website & -> & Hwebsite).
  exists website, g. repeat split; auto; lia.
Qed.

(** X23.  The checks end in an exception, rather than in an acceptance or
    in a refusal through [parser.error], in one case only: the two bounds
    are both given, one with a UTC offset and one without, and the
    comparison of the two raises [TypeError]; on a command line whose city
    and guest count [argparse] lets through, such bounds always end so.  A guest count that
    [argparse] lets through always converts, and a city that it lets
    through always has a site.  When the checks accept a command line, the
    site is the one of the city named, in either spelling; the guest count
    is between 1 and 6; the earliest time, when both bounds are given, is
    strictly before the latest; the date is not before today; and the
    date, the bounds and the wait flag are passed on unchanged. *)
Theorem startup_checks_accepted (cl : CommandLine) (today : date) :
  (forall e,
      startup_checks cl today = Raise e ->
      e = TypeError
      /\ exists lo hi,
           cl_minTime cl = Some lo /\ cl_maxTime cl = Some hi
           /\ mixed lo hi)
  /\ (forall lo hi,
        In (cl_city cl) city_choices ->
        In (cl_guests cl) guests_choices ->
        cl_minTime cl = Some lo -> cl_maxTime cl = Some hi ->
        mixed lo hi ->
        startup_checks cl today = Raise TypeError)
  /\ (forall website args,
        startup_checks cl today = Ok (Some (website, args)) ->
        ((In (cl_city cl) [lit "tokyo"; lit "Tokyo"]
          /\ website = tokyo_website)
         \/ (In (cl_city cl) [lit "osaka"; lit "Osaka"]
             /\ website = osaka_website))
        /\ 1 <= args_guests args <= 6
        /\ (forall lo hi,
              args_minTime args = Some lo -> args_maxTime args = Some hi ->
              time_lt lo hi = Ok true)
        /\ date_lt (args_date args) today = false
        /\ args_date args = cl_date cl
        /\ args_minTime args = cl_minTime cl
        /\ args_maxTime args = cl_maxTime cl
        /\ args_wait args = cl_wait cl).
Proof.
  destruct (existsb (str_eqb (cl_city cl)) city_choices) eqn:Hcity.
  2:{ rewrite (startup_checks_refused cl today (or_introl Hcity)).
      split; [discriminate|split; [|discriminate]].
      intros lo hi Hin. apply existsb_str_eqb in Hin. congruence. }
  destruct (existsb (str_eqb (cl_guests cl)) guests_choices) eqn:Hguests.
  2:{ rewrite (startup_checks_refused cl today (or_intror Hguests)).
      split; [discriminate|split; [|discriminate]].
      intros lo hi _ Hin. apply existsb_str_eqb in Hin. congruence. }
  apply existsb_str_eqb in Hcity, Hguests.
  destruct (startup_checks_chosen cl today Hcity Hguests)
    as (website & g & -> & Hwebsite & Hrange).
  destruct (cl_minTime cl) as [lo|] eqn:Hlo;
    [destruct (cl_maxTime cl) as [hi|] eqn:Hhi|];
    [destruct (time_ge lo hi) as [[|]|e'] eqn:Hge| |]; cbn [bind].
  - split; [discriminate|split; [|discriminate]].
    intros lo' hi' _ _ Hl Hh Hmixed.
    injection Hl as <-. injection Hh as <-.
    apply (ordering_mixed is_ge) in Hmixed. unfold time_ge in Hge. congruence.
  - destruct (date_lt (cl_date cl) today) eqn:Hdate;
      (split; [discriminate|split]).
    1,3: intros lo' hi' _ _ Hl Hh Hmixed;
      injection Hl as <-; injection Hh as <-;
      apply (ordering_mixed is_ge) in Hmixed; unfold time_ge in Hge;
      congruence.
    + discriminate.
    + intros website' args H. injection H as <- <-.
      cbn [args_guests args_date args_minTime args_maxTime args_wait].
      repeat split; auto; try lia.
      intros lo' hi' Hl Hh. injection Hl as <-. injection Hh as <-.
      now apply time_ge_false_lt.
  - pose proof (ordering_raises _ _ _ _ Hge) as ->.
    assert (Hmixed : mixed lo hi)
      by (now apply (ordering_mixed is_ge)).
    split; [|split; [reflexivity|discriminate]].
    intros e H. injection H as <-. split; [reflexivity|].
    exists lo, hi. auto.
  - destruct (date_lt (cl_date cl) today) eqn:Hdate;
      (split; [discriminate|split; [discriminate|]]); [discriminate|].
    intros website' args H. injection H as <- <-.
    cbn [args_guests args_date args_minTime args_maxTime args_wait].
    repeat split; auto; try lia. discriminate.
  - destruct (date_lt (cl_date cl) today) eqn:Hdate;
      (split; [discriminate|split; [discriminate|]]); [discriminate|].
    intros website' args H. injection H as <- <-.
    cbn [args_guests args_date args_minTime args_maxTime args_wait].
    repeat split; auto; try lia. discriminate.
Qed.

Lemma startup_checks_accepted_tokyo :
  (1 <= 2 <= 6 /\ time_lt (hm 10 30) (hm 15 0) = Ok true)
  /\ startup_checks command_line_mixed_bounds (mk_date 2026 11 3)
     = Raise TypeError.
Proof.
  split.
  - destruct (proj2 (proj2 (startup_checks_accepted command_line_tokyo
                              (mk_date 2026 11 3)))
                tokyo_website
                (mk_args 2 (mk_date 2026 12 25)
                   (Some (hm 10 30)) (Some (hm 15 0)) true)
                eq_refl)
      as (_ & Hguests & Hbounds & _).
    split; [exact Hguests|]. now apply Hbounds.
  - apply (proj1 (proj2 (startup_checks_accepted command_line_mixed_bounds
                           (mk_date 2026 11 3)))
             (hm_jst 10 30) (hm 15 0)).
    + right. right. left. reflexivity.
    + right. left. reflexivity.
    + reflexivity.
    + reflexivity.
    + right. split; [discriminate|reflexivity].
Defined.
(** ** A header without separator *)

Lemma re_split_non_digits_all_digits (s : str) :
  forallb ascii_digit s = true -> re_split_non_digits s = [s].
Proof.
  induction s as [|c s IH]; simpl; [reflexivity|].
  intros H. apply andb_true_iff in H. destruct H as [-> Hs].
  now rewrite (IH Hs).
Qed.

(** X24.  When a tick reaches the calendar and the header text has no
    character other than ASCII digits (the empty text included), the split
    gives a single piece: the tick logs a warning, sleeps one interval and
    goes on to the next tick, without reloading the page. *)
Theorem calendar_header_without_separator
  (nd_value : Z -> option Z) (args : Args) (s : Snapshot)
  (header_text : str) :
  reaches_calendar args s ->
  calendar_header s = Some header_text ->
  forallb ascii_digit header_text = true ->
  tick nd_value args s
  = out Unclassified
      [Log "WARN: Calendar header text not in expected format.";
       Sleep interval]
      Continue.
Proof.
  intros Hreach Hheader Hdigits.
  rewrite (tick_reaches_calendar nd_value args s Hreach), Hheader.
  unfold calendar_block.
  now rewrite (re_split_non_digits_all_digits header_text Hdigits).
Qed.

Lemma calendar_header_without_separator_empty :
  tick ascii_only args_march_31
    (mk_snapshot (lit "Reserve") (lit "<h1>Table Reservation</h1>")
       false false false false false []
       (fun _ => true) true (Some []) true true
       (fun _ => None) false)
  = out Unclassified
      [Log "WARN: Calendar header text not in expected format.";
       Sleep interval]
      Continue.
Proof.
  apply (calendar_header_without_separator ascii_only args_march_31
           (mk_snapshot (lit "Reserve") (lit "<h1>Table Reservation</h1>")
              false false false false false []
              (fun _ => true) true (Some []) true true
              (fun _ => None) false)
           []).
  - repeat split; reflexivity.
  - reflexivity.
  - reflexivity.
Defined.

(** ** The order of the checks, calendar included *)











